(** * Kraken API client: request signing, nonce allocation, response normalisation

    A shallow embedding of [kraken.js], in its two variants: the class
    [KrakenClient] (methods [api], [_publicMethod], [_privateMethod],
    [_getMessageSignature], [_rawRequest]) and the constructor
    function [KrakenClient] whose closures are [api], [publicMethod],
    [privateMethod], [getMessageSignature] and [rawRequest].

    Conventions of the embedding:
    - a JavaScript string is the list of its UTF-16 code units;
    - a JavaScript number is modelled by its integer value ([Z]); the only
      arithmetic of the program is [Date.now() * 1000] and [nonce + 1], and
      the rounding of IEEE doubles on integers is written out in [num_round];
    - an object is the association list of its own enumerable properties in
      enumeration order (the order [qs.stringify] and [JSON.stringify] see);
    - the libraries the program calls ([JSON], [qs], [crypto], [Buffer]) and
      the global scope of the host are the fields of the class [Platform];
    - an asynchronous completion is the list of the events the reply handler
      performs, in order: [resolve], [reject], the call of the callback, or an
      exception that nobody catches. *)

From Stdlib Require Import ZArith NArith List String Ascii Bool Lia.
From Stdlib Require Import Strings.Byte DecimalString.
Import ListNotations.
Open Scope Z_scope.
Set Warnings "-register-all".

(** ** JavaScript strings *)

Definition code_unit := N.
Definition jsstring := list code_unit.

(** A literal of the source text: one code unit per character. *)
Definition lit (s : string) : jsstring :=
  map N_of_ascii (list_ascii_of_string s).

Fixpoint jsstring_eqb (a b : jsstring) : bool :=
  match a, b with
  | [], [] => true
  | x :: a', y :: b' => N.eqb x y && jsstring_eqb a' b'
  | _, _ => false
  end.

(** [s.charAt(0) === 'E'] *)
Definition charAt0_is_E (s : jsstring) : bool :=
  match s with
  | c :: _ => N.eqb c 69
  | [] => false
  end.

(** [s.substr(1)] *)
Definition substr1 (s : jsstring) : jsstring := tl s.

(** Node's ['binary'] (latin1) encoding: writing a string keeps the low byte
    of every code unit, reading bytes gives one code unit per byte. *)
Definition byte_of_code_unit (c : code_unit) : byte :=
  match Byte.of_N (c mod 256) with
  | Some b => b
  | None => x00
  end.

Definition binary_encode (s : jsstring) : list byte := map byte_of_code_unit s.
Definition binary_decode (bs : list byte) : jsstring := map Byte.to_N bs.

(** ** JavaScript numbers (integer valued) *)

Definition MAX_SAFE_INTEGER : Z := 2 ^ 53 - 1.

(** The double nearest to the integer [x], ties to the even significand.
    Overflow to [Infinity] (beyond [2^1024]) is outside the model. *)
Definition num_round (x : Z) : Z :=
  let a := Z.abs x in
  if a <? 2 ^ 53 then x
  else
    let e := Z.log2 a - 52 in
    let q := a / 2 ^ e in
    let r := a mod 2 ^ e in
    let half := 2 ^ (e - 1) in
    let q' := if r <? half then q
              else if half <? r then q + 1
              else if Z.even q then q else q + 1 in
    Z.sgn x * (q' * 2 ^ e).

Definition num_add (a b : Z) : Z := num_round (a + b).
Definition num_mul (a b : Z) : Z := num_round (a * b).

(** The decimal digits of an integer, with a leading [-] when negative. *)
Definition decimal (n : Z) : jsstring :=
  lit (NilZero.string_of_int (Z.to_int n)).

(** ** JavaScript values *)

Inductive value : Type :=
| VUndefined
| VNull
| VBool (b : bool)
| VNum (n : Z)
| VStr (s : jsstring)
| VArr (elements : list value)
| VObj (properties : list (jsstring * value)).

Definition object := list (jsstring * value).

(** ToBoolean. *)
Definition truthy (v : value) : bool :=
  match v with
  | VUndefined | VNull => false
  | VBool b => b
  | VNum n => negb (n =? 0)
  | VStr s => match s with [] => false | _ => true end
  | VArr _ | VObj _ => true
  end.

(** [a || b] *)
Definition js_or (a b : value) : value := if truthy a then a else b.

(** Reading and writing an own property of an object. A write to an existing
    key keeps its place, a new key goes last. *)
Fixpoint lookup (o : object) (k : jsstring) : value :=
  match o with
  | [] => VUndefined
  | (k', v) :: rest => if jsstring_eqb k' k then v else lookup rest k
  end.

Fixpoint assign (o : object) (k : jsstring) (v : value) : object :=
  match o with
  | [] => [(k, v)]
  | (k', v') :: rest =>
      if jsstring_eqb k' k then (k', v) :: rest else (k', v') :: assign rest k v
  end.

(** ** Exceptions and abrupt completion *)

Inductive exn : Type :=
| Error (message : jsstring)
| TypeError
| ReferenceError.

Inductive completion (A : Type) : Type :=
| Normal (a : A)
| Throw (e : exn).
Arguments Normal {A} a.
Arguments Throw {A} e.

(** [data.key] for a key that is neither an index, nor [length], nor a
    member of a built-in prototype ([error], [result]): it throws on [null]
    and [undefined], is the own property of an object, and is [undefined] on
    arrays and primitive values. *)
Definition member (data : value) (k : jsstring) : completion value :=
  match data with
  | VUndefined | VNull => Throw TypeError
  | VObj o => Normal (lookup o k)
  | _ => Normal VUndefined
  end.

(** ** The host platform *)

Class Platform : Type := {
  (** [JSON.parse]; [None] is the [SyntaxError] *)
  JSON_parse : jsstring -> option value;
  JSON_stringify : value -> jsstring;
  (** [qs.stringify] of an object *)
  qs_stringify : object -> jsstring;
  (** the bytes [hash.update] reads from a string (UTF-8) *)
  utf8_encode : jsstring -> list byte;
  (** [new Buffer(s, 'base64')] and [digest('base64')] *)
  base64_decode : jsstring -> list byte;
  base64_encode : list byte -> jsstring;
  sha256 : list byte -> list byte;
  (** [hmac_sha512 key message] *)
  hmac_sha512 : list byte -> list byte -> list byte;
  (** Number::toString of an integer beyond the safe range *)
  Number_toString_unsafe : Z -> jsstring;
  (** whether the global scope binds the identifier [self] *)
  global_self : bool
}.

Section WithPlatform.
Context {P : Platform}.

(** Number::toString: every integer of the safe range prints as its digits. *)
Definition Number_toString (n : Z) : jsstring :=
  if Z.abs n <=? MAX_SAFE_INTEGER then decimal n else Number_toString_unsafe n.

Fixpoint join_comma (l : list jsstring) : jsstring :=
  match l with
  | [] => []
  | [s] => s
  | s :: rest => s ++ lit "," ++ join_comma rest
  end.

(** ToString, as string concatenation and template literals apply it. *)
Fixpoint ToString (v : value) : jsstring :=
  match v with
  | VUndefined => lit "undefined"
  | VNull => lit "null"
  | VBool true => lit "true"
  | VBool false => lit "false"
  | VNum n => Number_toString n
  | VStr s => s
  | VArr l =>
      join_comma
        (map (fun e => match e with
                       | VUndefined | VNull => []
                       | _ => ToString e
                       end) l)
  | VObj _ => lit "[object Object]"
  end.

(** ** Completion channels

    What the reply handler does, in order. [Resolve VUndefined] is
    [resolve()]; [Callback e v] is [callback.call(self, e, v)], with [None]
    for a [null] error; [Uncaught e] is an exception thrown out of the
    handler, after which it does nothing more. *)

Inductive event : Type :=
| Resolve (v : value)
| Reject (e : exn)
| Callback (error : option exn) (v : value)
| Uncaught (e : exn).

(** A promise is settled by the first [resolve] or [reject] it receives. *)
Inductive promise_state : Type :=
| Pending
| Fulfilled (v : value)
| Rejected (e : exn).

Fixpoint settle (trace : list event) : promise_state :=
  match trace with
  | [] => Pending
  | Resolve v :: _ => Fulfilled v
  | Reject e :: _ => Rejected e
  | _ :: rest => settle rest
  end.

(** ** The reply handler of [_rawRequest] and [rawRequest]

    The two variants have the same handler. They differ in what [self]
    denotes inside it: the closures of the constructor function see its
    [var self = this]; the class declares no [self], so the identifier is
    looked up in the global scope. [self] below tells whether the identifier
    is bound, and [callback] whether a (truthy) callback was passed. *)

Section ReplyHandler.
Variable self : bool.
Variable callback : bool.

(** [callback.call(self, error, v)]: evaluating the argument [self] throws
    when nothing binds it. *)
Definition callback_call (error : option exn) (v : value) : list event :=
  if self then [Callback error v] else [Uncaught ReferenceError].

(** [if (callback) { resolve(); return callback.call(self, error, null); }
     else { return reject(error); }] *)
Definition fail (error : exn) : list event :=
  if callback then Resolve VUndefined :: callback_call (Some error) VNull
  else [Reject error].

(** [data.error.forEach(function (element) { if (element.charAt(0) === 'E')
    { krakenError = element.substr(1); return false; } })], threading the
    variable [krakenError]. [forEach] ignores what its function returns.
    [element.charAt] is a function on strings only. *)
Fixpoint forEach_element (krakenError : value) (elements : list value)
  : completion value :=
  match elements with
  | [] => Normal krakenError
  | element :: rest =>
      match element with
      | VStr s =>
          if charAt0_is_E s then forEach_element (VStr (substr1 s)) rest
          else forEach_element krakenError rest
      | _ => Throw TypeError
      end
  end.

(** [data.error && Array.isArray(data.error) && data.error.length]: the
    entries of [e] when the condition holds. *)
Definition error_entries (e : value) : option (list value) :=
  if truthy e then
    match e with
    | VArr (first :: others) => Some (first :: others)
    | _ => None
    end
  else None.

(** [resolve(data.result || data); if (callback) { callback.call(self, null,
    data.result || data); }] *)
Definition succeed (data : value) : list event :=
  match member data (lit "result") with
  | Throw e => [Uncaught e]
  | Normal result =>
      Resolve (js_or result data)
        :: (if callback then callback_call None (js_or result data) else [])
  end.

(** The handler from [data = JSON.parse(body)] on. *)
Definition on_parsed (data : value) : list event :=
  match member data (lit "error") with
  | Throw e => [Uncaught e]
  | Normal data_error =>
      match error_entries data_error with
      | Some elements =>
          match forEach_element VNull elements with
          | Throw e => [Uncaught e]
          | Normal krakenError =>
              if truthy krakenError then
                fail (Error (lit "Kraken API returned error: "
                               ++ ToString krakenError))
              else
                fail (Error (lit "Kraken API returned an unknown error: "
                               ++ JSON_stringify data_error))
          end
      | None => succeed data
      end
  end.

(** [function (error, response, body) { ... }] *)
Definition on_reply (error : value) (body : jsstring) : list event :=
  if truthy error then
    fail (Error (lit "Error in server response: " ++ JSON_stringify error))
  else
    match JSON_parse body with
    | None =>
        fail (Error (lit "Could not understand response from server: "
                       ++ body))
    | Some data => on_parsed data
    end.

End ReplyHandler.

(** The names the specification gives to the errors of the handler. *)
Definition TransportError (cause : value) : exn :=
  Error (lit "Error in server response: " ++ JSON_stringify cause).
Definition ProtocolError (body : jsstring) : exn :=
  Error (lit "Could not understand response from server: " ++ body).
Definition RemoteError (code : jsstring) : exn :=
  Error (lit "Kraken API returned error: " ++ code).
Definition UnknownRemoteError (raw : list value) : exn :=
  Error (lit "Kraken API returned an unknown error: "
           ++ JSON_stringify (VArr raw)).

(** ** What both variants share: catalog, configuration, requests *)

Definition AVAILABLE_METHODS_public : list jsstring :=
  map lit ["Time"; "Assets"; "AssetPairs"; "Ticker"; "Depth"; "Trades";
           "Spread"; "OHLC"]%string.

Definition AVAILABLE_METHODS_private : list jsstring :=
  map lit ["Balance"; "TradeBalance"; "OpenOrders"; "ClosedOrders";
           "QueryOrders"; "TradesHistory"; "QueryTrades"; "OpenPositions";
           "Ledgers"; "QueryLedgers"; "TradeVolume"; "AddOrder";
           "CancelOrder"; "DepositMethods"; "DepositAddresses";
           "DepositStatus"; "WithdrawInfo"; "Withdraw"; "WithdrawStatus";
           "WithdrawCancel"]%string.

(** [l.indexOf(x)]: the first position of [x], or [-1]. *)
Fixpoint indexOf (l : list jsstring) (x : jsstring) : Z :=
  match l with
  | [] => -1
  | y :: rest =>
      if jsstring_eqb y x then 0
      else let i := indexOf rest x in if i =? -1 then -1 else i + 1
  end.

Record Config : Type := {
  url : jsstring;
  version : value;
  key : jsstring;
  secret : jsstring;
  otp : value;
  timeoutMS : value
}.

(** The [options] object handed to [request.post]. *)
Record request_options : Type := {
  opt_url : jsstring;
  opt_method : jsstring;
  opt_headers : object;
  opt_form : object;
  opt_timeout : value
}.

(** A request that has been posted: what was sent, and the handler that
    [request.post] will call with [(error, response, body)]. *)
Record posted : Type := {
  sent : request_options;
  handler : value -> jsstring -> list event
}.

(** [if (config.otp !== undefined) { params.otp = config.otp; }] *)
Definition inject_otp (config : Config) (params : object) : object :=
  match otp config with
  | VUndefined => params
  | _ => assign params (lit "otp") (otp config)
  end.

(** [hmac.update(path + hash.update(nonce + message).digest('binary'),
    'binary').digest('base64')] with [message = qs.stringify(request)] and
    the key [new Buffer(secret, 'base64')]. *)
Definition message_signature (config : Config) (path : jsstring)
    (request : object) (nonce : value) : jsstring :=
  let message := qs_stringify request in
  let secret := base64_decode (secret config) in
  let hash_digest :=
    binary_decode (sha256 (utf8_encode (ToString nonce ++ message))) in
  base64_encode (hmac_sha512 secret (binary_encode (path ++ hash_digest))).

(** The constructor's [this._config] / [var config], from an [options] that
    is already an object. *)
Definition make_config (key secret : jsstring) (options : value)
  : completion Config :=
  match member options (lit "version"), member options (lit "otp"),
        member options (lit "timeout") with
  | Normal o_version, Normal o_otp, Normal o_timeout =>
      Normal {| url := lit "https://api.kraken.com";
                version := js_or o_version (VStr (lit "0"));
                key := key;
                secret := secret;
                otp := o_otp;
                timeoutMS := js_or o_timeout (VNum 5000) |}
  | Throw e, _, _ | _, Throw e, _ | _, _, Throw e => Throw e
  end.

(** The body of [_rawRequest] / [rawRequest]: set the user agent, build the
    options, post them. [self] tells whether that identifier is bound inside
    the handler. *)
Definition post_request (self : bool) (config : Config)
    (url : jsstring) (headers params : object) (callback : bool) : posted :=
  let headers :=
    assign headers (lit "User-Agent")
      (VStr (lit "Kraken Javascript API Client")) in
  {| sent := {| opt_url := url;
                opt_method := lit "POST";
                opt_headers := headers;
                opt_form := params;
                opt_timeout := timeoutMS config |};
     handler := on_reply self callback |}.

End WithPlatform.

(** ** The class [KrakenClient]

    A call takes the instance and returns it with the caller's [params]
    object as the call leaves it (the object is mutated in place) and the
    request posted. [now] is what [Date.now()] reads during the call. An
    absent [params] is [None]; [callback] is whether a truthy one was given. *)

Module ClassClient.
Section WithPlatform.
Context {P : Platform}.

Record KrakenClient : Type := {
  _config : Config;
  _lastNonce : Z
}.

(** [constructor(key, secret, options = {})] *)
Definition constructor (key secret : jsstring) (options : value) (now : Z)
  : completion KrakenClient :=
  let options := match options with VUndefined => VObj [] | _ => options end in
  let options :=
    match options with
    | VStr s => VObj [(lit "otp", VStr s)]
    | _ => options
    end in
  match make_config key secret options with
  | Throw e => Throw e
  | Normal config =>
      Normal {| _config := config; _lastNonce := num_mul now 1000 |}
  end.

Definition _getMessageSignature (this : KrakenClient) (path : jsstring)
    (request : object) (nonce : value) : jsstring :=
  message_signature (_config this) path request nonce.

(** The class declares no [self]: the handler finds the global one. *)
Definition _rawRequest (this : KrakenClient) (url : jsstring)
    (headers params : object) (callback : bool) : posted :=
  post_request global_self (_config this) url headers params callback.

Definition _publicMethod (this : KrakenClient) (method : jsstring)
    (params : option object) (callback : bool)
  : KrakenClient * object * posted :=
  let params := match params with Some o => o | None => [] end in
  let config := _config this in
  let path := lit "/" ++ ToString (version config) ++ lit "/public/" ++ method in
  let url := url config ++ path in
  (this, params, _rawRequest this url [] params callback).

(** The nonce of a call that brings none: [this._lastNonce + 1], or the
    clock when [this._lastNonce] is falsy. *)
Definition next_nonce (lastNonce now : Z) : Z :=
  if truthy (VNum lastNonce) then num_add lastNonce 1 else num_mul now 1000.

Definition _privateMethod (this : KrakenClient) (now : Z) (method : jsstring)
    (params : option object) (callback : bool)
  : KrakenClient * object * posted :=
  let params := match params with Some o => o | None => [] end in
  let config := _config this in
  let path := lit "/" ++ ToString (version config) ++ lit "/private/" ++ method in
  let url := url config ++ path in
  let '(this, params) :=
    if negb (truthy (lookup params (lit "nonce"))) then
      let nonce := next_nonce (_lastNonce this) now in
      ({| _config := _config this; _lastNonce := nonce |},
       assign params (lit "nonce") (VNum nonce))
    else (this, params) in
  let params := inject_otp config params in
  let signature :=
    _getMessageSignature this path params (lookup params (lit "nonce")) in
  let headers :=
    [(lit "API-Key", VStr (key config)); (lit "API-Sign", VStr signature)] in
  (this, params, _rawRequest this url headers params callback).

Definition api (this : KrakenClient) (now : Z) (method : jsstring)
    (params : option object) (callback : bool)
  : completion (KrakenClient * object * posted) :=
  if negb (indexOf AVAILABLE_METHODS_public method =? -1) then
    Normal (_publicMethod this method params callback)
  else if negb (indexOf AVAILABLE_METHODS_private method =? -1) then
    Normal (_privateMethod this now method params callback)
  else Throw (Error (method ++ lit " is not a valid API method.")).

End WithPlatform.
End ClassClient.

(** ** The constructor function [KrakenClient] and its closures

    The instance holds its configuration only: there is no nonce counter.
    [this] is the object under construction, which [var self = this] keeps
    for the handler. *)

Module ClosureClient.
Section WithPlatform.
Context {P : Platform}.

Record KrakenClient : Type := {
  config : Config
}.

(** [function KrakenClient(key, secret, options)] *)
Definition constructor (key secret : jsstring) (options : value)
  : completion KrakenClient :=
  let options := js_or options (VObj []) in
  let options :=
    match options with
    | VStr s => VObj [(lit "otp", VStr s)]
    | _ => options
    end in
  match make_config key secret options with
  | Throw e => Throw e
  | Normal config => Normal {| config := config |}
  end.

Definition getMessageSignature (this : KrakenClient) (path : jsstring)
    (request : object) (nonce : value) : jsstring :=
  message_signature (config this) path request nonce.

Definition rawRequest (this : KrakenClient) (url : jsstring)
    (headers params : object) (callback : bool) : posted :=
  post_request true (config this) url headers params callback.

Definition publicMethod (this : KrakenClient) (method : jsstring)
    (params : option object) (callback : bool) : object * posted :=
  let params := match params with Some o => o | None => [] end in
  let path :=
    lit "/" ++ ToString (version (config this)) ++ lit "/public/" ++ method in
  let url := url (config this) ++ path in
  (params, rawRequest this url [] params callback).

Definition privateMethod (this : KrakenClient) (now : Z) (method : jsstring)
    (params : option object) (callback : bool) : object * posted :=
  let params := match params with Some o => o | None => [] end in
  let path :=
    lit "/" ++ ToString (version (config this)) ++ lit "/private/" ++ method in
  let url := url (config this) ++ path in
  let params :=
    if negb (truthy (lookup params (lit "nonce"))) then
      assign params (lit "nonce") (VNum (num_mul now 1000))
    else params in
  let params := inject_otp (config this) params in
  let signature :=
    getMessageSignature this path params (lookup params (lit "nonce")) in
  let headers :=
    [(lit "API-Key", VStr (key (config this)));
     (lit "API-Sign", VStr signature)] in
  (params, rawRequest this url headers params callback).

Definition api (this : KrakenClient) (now : Z) (method : jsstring)
    (params : option object) (callback : bool)
  : completion (object * posted) :=
  if negb (indexOf AVAILABLE_METHODS_public method =? -1) then
    Normal (publicMethod this method params callback)
  else if negb (indexOf AVAILABLE_METHODS_private method =? -1) then
    Normal (privateMethod this now method params callback)
  else Throw (Error (method ++ lit " is not a valid API method.")).

End WithPlatform.
End ClosureClient.

(** ** Reading a trace, classifying a reply, running calls *)

(** An error reaches the caller through the callback, or through the
    rejection of the promise. *)
Definition via_callback (trace : list event) (err : exn) : Prop :=
  In (Callback (Some err) VNull) trace.
Definition via_promise (trace : list event) (err : exn) : Prop :=
  settle trace = Rejected err.
Definition reports (trace : list event) (err : exn) : Prop :=
  via_callback trace err \/ In (Reject err) trace.

Definition is_array (v : value) : bool :=
  match v with
  | VArr _ => true
  | _ => false
  end.

Definition InvalidMethodError (method : jsstring) : exn :=
  Error (method ++ lit " is not a valid API method.").

(** The four outcomes of a call that the handler tells apart, as the
    specification lists them: a transport failure, a body that does not
    parse, a remote error (recognised or not), a success. *)
Inductive outcome : Type :=
| Failure (err : exn)
| Success (v : value).

Inductive call_outcome {P : Platform} (error : value) (body : jsstring)
  : outcome -> Prop :=
| transport_failure :
    truthy error = true ->
    call_outcome error body (Failure (TransportError error))
| unparseable_body :
    truthy error = false ->
    JSON_parse body = None ->
    call_outcome error body (Failure (ProtocolError body))
| remote_error data e entries code :
    truthy error = false ->
    JSON_parse body = Some data ->
    member data (lit "error") = Normal e ->
    error_entries e = Some entries ->
    forEach_element VNull entries = Normal code ->
    truthy code = true ->
    call_outcome error body (Failure (RemoteError (ToString code)))
| unknown_remote_error data e entries code :
    truthy error = false ->
    JSON_parse body = Some data ->
    member data (lit "error") = Normal e ->
    error_entries e = Some entries ->
    forEach_element VNull entries = Normal code ->
    truthy code = false ->
    call_outcome error body (Failure (UnknownRemoteError entries))
| success data e result :
    truthy error = false ->
    JSON_parse body = Some data ->
    member data (lit "error") = Normal e ->
    error_entries e = None ->
    member data (lit "result") = Normal result ->
    call_outcome error body (Success (js_or result data)).

(** The parameter object of a call ([params = {}], [params || {}]) and the
    path of a private call, as the statements below name them. *)
Definition bag (params : option object) : object :=
  match params with
  | Some o => o
  | None => []
  end.

Definition private_path {P : Platform} (config : Config) (method : jsstring)
  : jsstring :=
  lit "/" ++ ToString (version config) ++ lit "/private/" ++ method.

(** The nonces of successive private calls on one instance, each call with a
    parameter object of its own that holds no nonce; [clock] lists what
    [Date.now()] reads during each call. *)
Module Run.
Section WithPlatform.
Context {P : Platform}.

Fixpoint class_nonces (this : ClassClient.KrakenClient) (method : jsstring)
    (clock : list Z) : list value :=
  match clock with
  | [] => []
  | now :: later =>
      let '(this', params, _) :=
        ClassClient._privateMethod this now method None false in
      lookup params (lit "nonce") :: class_nonces this' method later
  end.

Fixpoint closure_nonces (this : ClosureClient.KrakenClient)
    (method : jsstring) (clock : list Z) : list value :=
  match clock with
  | [] => []
  | now :: later =>
      let '(params, _) :=
        ClosureClient.privateMethod this now method None false in
      lookup params (lit "nonce") :: closure_nonces this method later
  end.

End WithPlatform.
End Run.

(** [strictly_increasing l]: every nonce is a number above the one before. *)
Fixpoint strictly_increasing (l : list value) : Prop :=
  match l with
  | VNum a :: ((VNum b :: _) as rest) => a < b /\ strictly_increasing rest
  | [VNum _] | [] => True
  | _ => False
  end.

(** [count_from n k] is [n; n + 1; ...], [k] numbers. *)
Fixpoint count_from (n : Z) (k : nat) : list Z :=
  match k with
  | O => []
  | S k' => n :: count_from (n + 1) k'
  end.

(** How often a trace settles the promise, and how often it calls the
    callback. *)
Fixpoint settlements (trace : list event) : nat :=
  match trace with
  | [] => O
  | (Resolve _ | Reject _) :: rest => S (settlements rest)
  | _ :: rest => settlements rest
  end.

Fixpoint callback_calls (trace : list event) : nat :=
  match trace with
  | [] => O
  | Callback _ _ :: rest => S (callback_calls rest)
  | _ :: rest => callback_calls rest
  end.

(** The names of the own properties of an object, in enumeration order. *)
Definition keys (o : object) : list jsstring := map fst o.

Definition public_path {P : Platform} (config : Config) (method : jsstring)
  : jsstring :=
  lit "/" ++ ToString (version config) ++ lit "/public/" ++ method.

(** A small platform for the examples. [JSON_parse] knows four bodies; the
    other functions are stand-ins of the right type. *)
Definition example_parse (body : jsstring) : option value :=
  if jsstring_eqb body (lit "{}") then Some (VObj [])
  else if jsstring_eqb body (lit "[]") then Some (VArr [])
  else if jsstring_eqb body (lit "null") then Some VNull
  else if jsstring_eqb body (lit "0") then Some (VNum 0)
  else None.

Definition example_platform : Platform := {|
  JSON_parse := example_parse;
  JSON_stringify := fun _ => lit "{}";
  qs_stringify := fun _ => lit "nonce=1";
  utf8_encode := binary_encode;
  base64_decode := binary_encode;
  base64_encode := binary_decode;
  sha256 := fun bs => rev bs;
  hmac_sha512 := fun k m => k ++ m;
  Number_toString_unsafe := decimal;
  global_self := false
|}.

Definition example_config : Config := {|
  url := lit "https://api.kraken.com";
  version := VStr (lit "0");
  key := lit "key";
  secret := lit "c2VjcmV0";
  otp := VUndefined;
  timeoutMS := VNum 5000
|}.

(** * Properties *)

(** ** Strings, objects, numbers *)

Lemma jsstring_eqb_eq (a b : jsstring) : jsstring_eqb a b = true <-> a = b.
Proof.
  revert b. induction a as [|x a IH]; intros [|y b]; simpl;
    try (split; congruence).
  rewrite andb_true_iff, N.eqb_eq, IH. split.
  - intros [-> ->]. reflexivity.
  - intros [= -> ->]. split; reflexivity.
Qed.

Lemma jsstring_eqb_refl (a : jsstring) : jsstring_eqb a a = true.
Proof. now apply jsstring_eqb_eq. Qed.

Lemma jsstring_eqb_neq (a b : jsstring) : a <> b -> jsstring_eqb a b = false.
Proof.
  intros H. destruct (jsstring_eqb a b) eqn:E; [|reflexivity].
  apply jsstring_eqb_eq in E. contradiction.
Qed.

Lemma lookup_assign_same (o : object) (k : jsstring) (v : value) :
  lookup (assign o k v) k = v.
Proof.
  induction o as [|[k' v'] rest IH]; simpl.
  - now rewrite jsstring_eqb_refl.
  - destruct (jsstring_eqb k' k) eqn:E; simpl; rewrite E; auto.
Qed.

Lemma lookup_assign_other (o : object) (k k' : jsstring) (v : value) :
  k <> k' -> lookup (assign o k v) k' = lookup o k'.
Proof.
  intros Hne. induction o as [|[k0 v0] rest IH]; simpl.
  - now rewrite (jsstring_eqb_neq k k').
  - destruct (jsstring_eqb k0 k) eqn:E; simpl.
    + apply jsstring_eqb_eq in E. subst k0.
      now rewrite (jsstring_eqb_neq k k').
    + now rewrite IH.
Qed.

Lemma indexOf_lower_bound (l : list jsstring) (x : jsstring) :
  -1 <= indexOf l x.
Proof.
  induction l as [|y rest IH]; simpl; [lia|].
  destruct (jsstring_eqb y x); [lia|].
  destruct (indexOf rest x =? -1) eqn:E; lia.
Qed.

Lemma indexOf_absent (l : list jsstring) (x : jsstring) :
  indexOf l x = -1 <-> ~ In x l.
Proof.
  induction l as [|y rest IH]; simpl.
  - tauto.
  - destruct (jsstring_eqb y x) eqn:E.
    + apply jsstring_eqb_eq in E. split; [lia | tauto].
    + assert (y <> x) by (intros ->; rewrite jsstring_eqb_refl in E; discriminate).
      pose proof (indexOf_lower_bound rest x).
      destruct (indexOf rest x =? -1) eqn:E1.
      * apply Z.eqb_eq in E1. tauto.
      * apply Z.eqb_neq in E1. split; [lia|]. intros Hn. exfalso. tauto.
Qed.

Lemma byte_of_code_unit_to_N (b : byte) : byte_of_code_unit (Byte.to_N b) = b.
Proof.
  unfold byte_of_code_unit.
  rewrite N.mod_small by (pose proof (Byte.to_N_bounded b); lia).
  now rewrite Byte.of_to_N.
Qed.

(** Reading bytes as a ['binary'] string and writing them back loses nothing. *)
Lemma binary_encode_decode (bs : list byte) :
  binary_encode (binary_decode bs) = bs.
Proof.
  unfold binary_encode, binary_decode. rewrite map_map.
  induction bs as [|b bs IH]; simpl; [reflexivity|].
  now rewrite byte_of_code_unit_to_N, IH.
Qed.

Lemma binary_encode_app (a b : jsstring) :
  binary_encode (a ++ b) = binary_encode a ++ binary_encode b.
Proof. apply map_app. Qed.

(** Integers of the safe range are doubles: no rounding. *)
Lemma num_round_safe (x : Z) : Z.abs x <= MAX_SAFE_INTEGER -> num_round x = x.
Proof.
  unfold num_round, MAX_SAFE_INTEGER. intros H.
  destruct (Z.abs x <? 2 ^ 53) eqn:E; [reflexivity|].
  apply Z.ltb_ge in E. lia.
Qed.

(** ** Dispatch *)

(** C5. A method name that is in neither catalog makes [api] throw, in both
    variants, the error that names the method: the call completes abruptly,
    so no request is posted and no promise exists that could be rejected. *)
Theorem unknown_method_throws {P : Platform}
    (c : ClassClient.KrakenClient) (f : ClosureClient.KrakenClient)
    (now : Z) (method : jsstring) (params : option object) (callback : bool) :
  ~ In method AVAILABLE_METHODS_public ->
  ~ In method AVAILABLE_METHODS_private ->
  ClassClient.api c now method params callback
    = Throw (InvalidMethodError method)
  /\ ClosureClient.api f now method params callback
    = Throw (InvalidMethodError method)
  /\ (forall r, ClassClient.api c now method params callback <> Normal r)
  /\ (forall r, ClosureClient.api f now method params callback <> Normal r).
Proof.
  intros Hpub Hpriv.
  apply indexOf_absent in Hpub. apply indexOf_absent in Hpriv.
  unfold ClassClient.api, ClosureClient.api.
  rewrite Hpub, Hpriv. simpl.
  repeat split; try reflexivity; intros r; discriminate.
Qed.

Lemma unknown_method_throws_witness :
  let method := lit "Balances" in
  let c := {| ClassClient._config := example_config;
              ClassClient._lastNonce := 1700000000000000 |} in
  let f := {| ClosureClient.config := example_config |} in
  ~ In method AVAILABLE_METHODS_public
  /\ ~ In method AVAILABLE_METHODS_private
  /\ @ClassClient.api example_platform c 1700000000001 method None false
       = Throw (InvalidMethodError method)
  /\ @ClosureClient.api example_platform f 1700000000001 method None false
       = Throw (InvalidMethodError method).
Proof.
  intros method c f.
  assert (Hpub : ~ In method AVAILABLE_METHODS_public).
  { apply indexOf_absent. reflexivity. }
  assert (Hpriv : ~ In method AVAILABLE_METHODS_private).
  { apply indexOf_absent. reflexivity. }
  split; [exact Hpub|]. split; [exact Hpriv|].
  destruct (@unknown_method_throws example_platform c f 1700000000001 method
              None false Hpub Hpriv) as (H1 & H2 & _).
  split; assumption.
Defined.

(** A catalogued method is dispatched: [api] returns normally. *)
Lemma known_method_returns {P : Platform}
    (c : ClassClient.KrakenClient) (now : Z) (method : jsstring)
    (params : option object) (callback : bool) :
  In method (AVAILABLE_METHODS_public ++ AVAILABLE_METHODS_private) ->
  exists r, ClassClient.api c now method params callback = Normal r.
Proof.
  intros Hin. unfold ClassClient.api.
  destruct (indexOf AVAILABLE_METHODS_public method =? -1) eqn:E1;
    cbn [negb].
  - destruct (indexOf AVAILABLE_METHODS_private method =? -1) eqn:E2;
      cbn [negb].
    + apply Z.eqb_eq in E1, E2.
      apply indexOf_absent in E1. apply indexOf_absent in E2.
      apply in_app_or in Hin. tauto.
    + eexists; reflexivity.
  - eexists; reflexivity.
Qed.

(** ** Signature *)

Lemma Number_toString_safe {P : Platform} (n : Z) :
  Z.abs n <= MAX_SAFE_INTEGER -> Number_toString n = decimal n.
Proof.
  intros H. unfold Number_toString.
  now destruct (Z.leb_spec (Z.abs n) MAX_SAFE_INTEGER); [|lia].
Qed.

(** The digest travels as a ['binary'] string, yet the HMAC reads exactly the
    bytes of the path followed by the bytes of the digest. *)
Lemma hmac_input_bytes (path : jsstring) (digest : list byte) :
  binary_encode (path ++ binary_decode digest) = binary_encode path ++ digest.
Proof. now rewrite binary_encode_app, binary_encode_decode. Qed.

(** C2. For a numeric nonce (an integer of the safe range, which prints as
    its decimal digits) the signature of both variants is
    base64(HMAC-SHA512(key, path ++ SHA256(decimal nonce ++ qs(params)))),
    with the key the base64-decoded secret, the SHA-256 digest appended as its
    raw bytes, and [params] serialised as the object stands. *)
Theorem signature_formula {P : Platform}
    (c : ClassClient.KrakenClient) (f : ClosureClient.KrakenClient)
    (path : jsstring) (params : object) (nonce : Z) :
  Z.abs nonce <= MAX_SAFE_INTEGER ->
  ClassClient._getMessageSignature c path params (VNum nonce)
    = base64_encode
        (hmac_sha512 (base64_decode (secret (ClassClient._config c)))
           (binary_encode path
              ++ sha256 (utf8_encode (decimal nonce ++ qs_stringify params))))
  /\ ClosureClient.getMessageSignature f path params (VNum nonce)
    = base64_encode
        (hmac_sha512 (base64_decode (secret (ClosureClient.config f)))
           (binary_encode path
              ++ sha256 (utf8_encode (decimal nonce ++ qs_stringify params)))).
Proof.
  intros Hsafe.
  unfold ClassClient._getMessageSignature, ClosureClient.getMessageSignature,
    message_signature.
  cbn [ToString]. rewrite (Number_toString_safe nonce Hsafe).
  now rewrite hmac_input_bytes.
Qed.

Lemma signature_formula_witness :
  let c := {| ClassClient._config := example_config;
              ClassClient._lastNonce := 1700000000000000 |} in
  let path := lit "/0/private/Balance" in
  let params := [(lit "nonce", VNum 1700000000000001)] in
  Z.abs 1700000000000001 <= MAX_SAFE_INTEGER
  /\ @ClassClient._getMessageSignature example_platform c path params
       (VNum 1700000000000001)
     = @base64_encode example_platform
         (@hmac_sha512 example_platform
            (@base64_decode example_platform (secret example_config))
            (binary_encode path
               ++ @sha256 example_platform
                    (@utf8_encode example_platform
                       (decimal 1700000000000001
                          ++ @qs_stringify example_platform params)))).
Proof.
  intros c path params.
  assert (H : Z.abs 1700000000000001 <= MAX_SAFE_INTEGER)
    by (vm_compute; discriminate).
  split; [exact H|].
  exact (proj1 (@signature_formula example_platform c
                  {| ClosureClient.config := example_config |}
                  path params 1700000000000001 H)).
Defined.

(** ** Response normalisation *)

Lemma error_entries_some (e : value) (entries : list value) :
  error_entries e = Some entries ->
  e = VArr entries /\ exists first others, entries = first :: others.
Proof.
  unfold error_entries. destruct e as [ | |b|n|s|l|o]; simpl;
    try discriminate.
  - destruct b; discriminate.
  - destruct (negb (n =? 0)); discriminate.
  - destruct s; discriminate.
  - destruct l as [|first others]; [discriminate|].
    intros [= <-]. split; [reflexivity|]. now exists first, others.
Qed.

Lemma error_entries_none (e : value) :
  error_entries e = None <-> (is_array e = false \/ e = VArr []).
Proof.
  unfold error_entries. destruct e as [ | |b|n|s|l|o]; simpl;
    try (split; [now left | reflexivity]).
  - destruct b; (split; [now left | reflexivity]).
  - destruct (negb (n =? 0)); (split; [now left | reflexivity]).
  - destruct s; (split; [now left | reflexivity]).
  - destruct l as [|first others].
    + split; [now right | reflexivity].
    + split; [discriminate | intros [H|H]; discriminate].
Qed.

(** [forEach] visits every entry, so of several entries that begin with [E]
    the last one is kept: after such an entry, entries that do not begin with
    [E] leave [krakenError] as it is. *)
Lemma forEach_element_skips (krakenError : value) (entries : list jsstring) :
  Forall (fun s => charAt0_is_E s = false) entries ->
  forEach_element krakenError (map VStr entries) = Normal krakenError.
Proof.
  induction 1 as [|s rest Hs _ IH]; simpl; [reflexivity|].
  now rewrite Hs.
Qed.

Lemma forEach_element_last_match (krakenError : value)
    (before after : list jsstring) (entry : jsstring) :
  charAt0_is_E entry = true ->
  Forall (fun s => charAt0_is_E s = false) after ->
  forEach_element krakenError (map VStr (before ++ entry :: after))
    = Normal (VStr (substr1 entry)).
Proof.
  intros He Hafter. revert krakenError.
  induction before as [|s before IH]; intros krakenError; simpl.
  - rewrite He. now apply forEach_element_skips.
  - destruct (charAt0_is_E s); apply IH.
Qed.

(** When no entry begins with [E], also when the last entry that does is [E]
    alone, the error is the unknown one, with the whole array. *)
Lemma no_code_is_unknown_error {P : Platform} (self callback : bool)
    (data e : value) (entries : list value) (krakenError : value) :
  member data (lit "error") = Normal e ->
  error_entries e = Some entries ->
  forEach_element VNull entries = Normal krakenError ->
  truthy krakenError = false ->
  on_parsed self callback data
    = fail self callback (UnknownRemoteError entries).
Proof.
  intros Hm He Hf Ht. unfold on_parsed. rewrite Hm, He, Hf, Ht.
  apply error_entries_some in He. destruct He as [-> _]. reflexivity.
Qed.

(** C1. On the body [{"error":["EFoo","EBar"]}] the handler reports the code
    of the second entry, [Bar]: the scan does not stop at the first entry
    that begins with [E]. *)
Theorem first_E_entry_is_overwritten {P : Platform} (self : bool) :
  let data :=
    VObj [(lit "error", VArr [VStr (lit "EFoo"); VStr (lit "EBar")])] in
  on_parsed self false data = [Reject (RemoteError (lit "Bar"))]
  /\ on_parsed self false data <> [Reject (RemoteError (lit "Foo"))].
Proof.
  split; [reflexivity|]. cbv. intros H. discriminate H.
Qed.

(** The two examples of the specification: one entry with a code, one entry
    without. *)
Example remote_error_example {P : Platform} (self : bool) :
  on_parsed self false
    (VObj [(lit "error", VArr [VStr (lit "EGeneral:Invalid arguments")])])
  = [Reject (RemoteError (lit "General:Invalid arguments"))].
Proof. reflexivity. Qed.

Example unknown_error_example {P : Platform} (self : bool) :
  on_parsed self false (VObj [(lit "error", VArr [VStr (lit "Unparseable")])])
  = [Reject (UnknownRemoteError [VStr (lit "Unparseable")])].
Proof. reflexivity. Qed.

(** An entry that is [E] alone gives the empty code, which is falsy: the
    unknown error. *)
Example lone_E_example {P : Platform} (self : bool) :
  on_parsed self false (VObj [(lit "error", VArr [VStr (lit "E")])])
  = [Reject (UnknownRemoteError [VStr (lit "E")])].
Proof. reflexivity. Qed.

(** The body [null] parses, and reading its [error] throws out of the
    handler: neither channel hears of it. *)
Example null_body_example {P : Platform} (self callback : bool) :
  on_parsed self callback VNull = [Uncaught TypeError].
Proof. reflexivity. Qed.

(** So does an entry of the [error] array that is not a string. *)
Example number_entry_example {P : Platform} (self callback : bool) :
  on_parsed self callback (VObj [(lit "error", VArr [VNum 7])])
  = [Uncaught TypeError].
Proof. reflexivity. Qed.

Lemma settle_succeed (self callback : bool)
    (data result : value) :
  member data (lit "result") = Normal result ->
  settle (succeed self callback data) = Fulfilled (js_or result data).
Proof. intros H. unfold succeed. now rewrite H. Qed.

Lemma succeed_reports_nothing (self callback : bool)
    (data : value) (err : exn) :
  ~ reports (succeed self callback data) err.
Proof.
  unfold reports, via_callback, succeed, callback_call.
  destruct (member data (lit "result")) as [result|e];
    destruct callback, self; simpl; intros [H|H];
    repeat (destruct H as [H|H]; try discriminate H); exact H.
Qed.

Lemma member_normal (data : value) (k k' : jsstring) (v : value) :
  member data k = Normal v -> exists v', member data k' = Normal v'.
Proof.
  destruct data; simpl; try discriminate; intros _; eexists; reflexivity.
Qed.

(** C6, as stated, fails: a [result] that is present but falsy is not what
    the call yields. On [{"error":[],"result":0}] it yields the whole body. *)
Lemma falsy_result_yields_body :
  ~ (forall (P : Platform) (self callback : bool) (data e result : value),
        member data (lit "error") = Normal e ->
        error_entries e = None ->
        member data (lit "result") = Normal result ->
        result <> VUndefined ->
        settle (on_parsed self callback data) = Fulfilled result).
Proof.
  intros H.
  specialize (H example_platform true false
                (VObj [(lit "error", VArr []); (lit "result", VNum 0)])
                (VArr []) (VNum 0) eq_refl eq_refl eq_refl).
  assert (Hne : VNum 0 <> VUndefined) by discriminate.
  specialize (H Hne). discriminate H.
Qed.

(** C6, amended. A parsed body that is not classified as an error makes the
    call succeed with [body.result] when that is truthy, and with the whole
    parsed body otherwise ([result] absent, [null], [false], [0] or the empty
    string). *)
Theorem success_yields_result_or_body {P : Platform} (self callback : bool)
    (data e result : value) :
  member data (lit "error") = Normal e ->
  error_entries e = None ->
  member data (lit "result") = Normal result ->
  settle (on_parsed self callback data)
    = Fulfilled (if truthy result then result else data)
  /\ (forall err, ~ reports (on_parsed self callback data) err).
Proof.
  intros Hm He Hr. unfold on_parsed. rewrite Hm, He. split.
  - now rewrite (settle_succeed self callback data result Hr).
  - intros err. apply succeed_reports_nothing.
Qed.

Lemma success_yields_result_or_body_witness :
  let foo := VObj [(lit "foo", VNum 1)] in
  let data := VObj [(lit "error", VArr []); (lit "result", foo)] in
  member data (lit "error") = Normal (VArr [])
  /\ error_entries (VArr []) = None
  /\ member data (lit "result") = Normal foo
  /\ settle (@on_parsed example_platform true false data) = Fulfilled foo.
Proof.
  intros foo data.
  split; [reflexivity|]. split; [reflexivity|]. split; [reflexivity|].
  exact (proj1 (@success_yields_result_or_body example_platform true false
                  data (VArr []) foo eq_refl eq_refl eq_refl)).
Defined.

(** C10. When the [error] member of the parsed body is absent, is not an
    array, or is the empty array, the call succeeds whatever that member
    holds; and an error is reported only when it is a non-empty array. *)
Theorem only_nonempty_error_array_fails {P : Platform} (self callback : bool)
    (data e : value) :
  member data (lit "error") = Normal e ->
  (e = VUndefined \/ is_array e = false \/ e = VArr [] ->
   on_parsed self callback data = succeed self callback data
   /\ (exists v, settle (on_parsed self callback data) = Fulfilled v)
   /\ (forall err, ~ reports (on_parsed self callback data) err))
  /\ (forall err, reports (on_parsed self callback data) err ->
      exists first others, e = VArr (first :: others)).
Proof.
  intros Hm. split.
  - intros Hshape.
    assert (He : error_entries e = None).
    { apply error_entries_none.
      destruct Hshape as [->|[H|H]]; [now left | now left | now right]. }
    destruct (member_normal data _ (lit "result") e Hm) as [result Hr].
    unfold on_parsed. rewrite Hm, He. split; [reflexivity|]. split.
    + exists (js_or result data). now apply settle_succeed.
    + intros err. apply succeed_reports_nothing.
  - intros err Hrep. destruct (error_entries e) as [entries|] eqn:He.
    + apply error_entries_some in He.
      destruct He as [-> (first & others & ->)]. now exists first, others.
    + exfalso. unfold on_parsed in Hrep. rewrite Hm, He in Hrep.
      now apply succeed_reports_nothing in Hrep.
Qed.

Lemma only_nonempty_error_array_fails_witness :
  let data :=
    VObj [(lit "error", VStr (lit "EGeneral:Internal error"));
          (lit "result", VObj [(lit "foo", VNum 1)])] in
  member data (lit "error") = Normal (VStr (lit "EGeneral:Internal error"))
  /\ is_array (VStr (lit "EGeneral:Internal error")) = false
  /\ @on_parsed example_platform true true data
     = succeed true true data.
Proof.
  intros data.
  split; [reflexivity|]. split; [reflexivity|].
  exact (proj1 (proj1 (@only_nonempty_error_array_fails example_platform
                         true true data
                         (VStr (lit "EGeneral:Internal error")) eq_refl)
                  (or_intror (or_introl eq_refl)))).
Defined.

(** ** Completion channels *)

(** What [fail] does once [self] is bound. *)
Lemma fail_trace (callback : bool) (err : exn) :
  fail true callback err
  = if callback then [Resolve VUndefined; Callback (Some err) VNull]
    else [Reject err].
Proof. destruct callback; reflexivity. Qed.

Lemma fail_one_channel (callback : bool) (err : exn) :
  let trace := fail true callback err in
  (via_callback trace err /\ ~ via_promise trace err)
  \/ (~ via_callback trace err /\ via_promise trace err).
Proof.
  unfold via_callback, via_promise. destruct callback; simpl.
  - left. split; [right; left; reflexivity | discriminate].
  - right. split; [|reflexivity].
    intros [H|[]]. discriminate H.
Qed.

(** The handler on each of the four outcomes. *)
Lemma on_reply_outcome {P : Platform} (self callback : bool)
    (error : value) (body : jsstring) (o : outcome) :
  call_outcome error body o ->
  on_reply self callback error body
  = match o with
    | Failure err => fail self callback err
    | Success v =>
        Resolve v :: (if callback then callback_call self None v else [])
    end.
Proof.
  intros Ho. unfold on_reply.
  destruct Ho as [Herr | Herr Hparse
                 | data e entries code Herr Hparse Hm He Hf Ht
                 | data e entries code Herr Hparse Hm He Hf Ht
                 | data e result Herr Hparse Hm He Hr];
    rewrite Herr; try reflexivity; rewrite Hparse; try reflexivity.
  - unfold on_parsed. now rewrite Hm, He, Hf, Ht.
  - now apply no_code_is_unknown_error with (e := e) (krakenError := code).
  - unfold on_parsed, succeed. now rewrite Hm, He, Hr.
Qed.

(** C4, as stated, fails: with a callback, a success resolves the promise
    with the value, not with no value. The body [{}] parses, has no [error],
    and the promise is fulfilled with the parsed body. *)
Lemma success_resolves_with_value :
  ~ (forall (P : Platform) (f : ClosureClient.KrakenClient)
            (url : jsstring) (headers params : object)
            (error : value) (body : jsstring) (o : outcome),
        call_outcome error body o ->
        settle (handler (ClosureClient.rawRequest f url headers params true)
                  error body)
        = Fulfilled VUndefined).
Proof.
  intros H.
  assert (Ho : @call_outcome example_platform VNull (lit "{}")
                 (Success (VObj []))).
  { exact (@success example_platform VNull (lit "{}") (VObj []) VUndefined
             VUndefined eq_refl eq_refl eq_refl eq_refl eq_refl). }
  specialize (H example_platform {| ClosureClient.config := example_config |}
                (lit "https://api.kraken.com/0/public/Time") [] []
                VNull (lit "{}") (Success (VObj [])) Ho).
  discriminate H.
Qed.

(** C4, amended. In the constructor-function variant, and in the class
    variant on a host that binds [self]: a failure (transport failure, body
    that does not parse, remote error) given a callback calls it with
    [(error, null)] and resolves the promise with no value, and given none
    rejects the promise with the error, so that the error travels through
    exactly one channel; a success resolves the promise with the value
    whether or not there is a callback, and a callback receives
    [(null, value)] as well. *)
Theorem completion_channels {P : Platform}
    (f : ClosureClient.KrakenClient) (c : ClassClient.KrakenClient)
    (url : jsstring) (headers params : object) (callback : bool)
    (error : value) (body : jsstring) (o : outcome) :
  call_outcome error body o ->
  let trace :=
    handler (ClosureClient.rawRequest f url headers params callback)
      error body in
  (global_self = true ->
   handler (ClassClient._rawRequest c url headers params callback) error body
   = trace)
  /\ match o with
     | Failure err =>
         trace = (if callback
                  then [Resolve VUndefined; Callback (Some err) VNull]
                  else [Reject err])
         /\ ((via_callback trace err /\ ~ via_promise trace err)
             \/ (~ via_callback trace err /\ via_promise trace err))
     | Success v =>
         trace = Resolve v :: (if callback then [Callback None v] else [])
         /\ settle trace = Fulfilled v
     end.
Proof.
  intros Ho trace. subst trace.
  unfold ClosureClient.rawRequest, ClassClient._rawRequest, post_request.
  cbn [handler]. split.
  - intros ->. reflexivity.
  - rewrite (on_reply_outcome true callback error body o Ho).
    destruct o as [err|v].
    + split; [apply fail_trace | apply fail_one_channel].
    + unfold callback_call. split; reflexivity.
Qed.

Lemma completion_channels_witness :
  let f := {| ClosureClient.config := example_config |} in
  let url := lit "https://api.kraken.com/0/public/Time" in
  let err := @ProtocolError (lit "<html>") in
  @call_outcome example_platform VNull (lit "<html>") (Failure err)
  /\ handler (@ClosureClient.rawRequest example_platform f url [] [] true)
       VNull (lit "<html>")
     = [Resolve VUndefined; Callback (Some err) VNull].
Proof.
  intros f url err.
  assert (Ho : @call_outcome example_platform VNull (lit "<html>")
                 (Failure err)).
  { exact (@unparseable_body example_platform VNull (lit "<html>")
             eq_refl eq_refl). }
  split; [exact Ho|].
  exact (proj1 (proj2 (@completion_channels example_platform f
                         {| ClassClient._config := example_config;
                            ClassClient._lastNonce := 1700000000000000 |}
                         url [] [] true VNull (lit "<html>") (Failure err)
                         Ho))).
Defined.

(** In the class variant on a host without a global [self], a failure given
    a callback resolves the promise with no value and then throws out of the
    handler before the callback is called. *)
Lemma class_callback_without_self {P : Platform}
    (c : ClassClient.KrakenClient) (url : jsstring) (headers params : object)
    (error : value) (body : jsstring) (err : exn) :
  global_self = false ->
  call_outcome error body (Failure err) ->
  handler (ClassClient._rawRequest c url headers params true) error body
  = [Resolve VUndefined; Uncaught ReferenceError].
Proof.
  intros Hself Ho.
  unfold ClassClient._rawRequest, post_request. cbn [handler].
  rewrite (on_reply_outcome global_self true error body _ Ho), Hself.
  reflexivity.
Qed.

(** ** Nonces *)

Lemma lit_otp_nonce : lit "otp" <> lit "nonce".
Proof. discriminate. Qed.

(** The injection of the one-time password leaves the nonce alone. *)
Lemma inject_otp_nonce (config : Config) (params : object) :
  lookup (inject_otp config params) (lit "nonce")
  = lookup params (lit "nonce").
Proof.
  unfold inject_otp. destruct (otp config); try reflexivity;
    apply lookup_assign_other, lit_otp_nonce.
Qed.

Lemma inject_otp_otp (config : Config) (params : object) :
  otp config <> VUndefined ->
  lookup (inject_otp config params) (lit "otp") = otp config.
Proof.
  unfold inject_otp. destruct (otp config); try congruence;
    intros _; apply lookup_assign_same.
Qed.

Lemma num_round_positive (x : Z) : 0 < x -> 0 < num_round x.
Proof.
  intros Hx. unfold num_round. rewrite (Z.abs_eq x) by lia.
  destruct (x <? 2 ^ 53) eqn:E; [exact Hx|].
  apply Z.ltb_ge in E.
  assert (Hlog : 53 <= Z.log2 x) by (apply Z.log2_le_pow2; lia).
  set (e := Z.log2 x - 52).
  assert (He : 0 < 2 ^ e) by (apply Z.pow_pos_nonneg; lia).
  assert (Hq : 1 <= x / 2 ^ e).
  { apply Z.div_le_lower_bound; [exact He|].
    rewrite Z.mul_1_r.
    apply Z.le_trans with (2 ^ Z.log2 x).
    - apply Z.pow_le_mono_r; lia.
    - apply Z.log2_spec; lia. }
  rewrite (Z.sgn_pos x Hx).
  destruct (x mod 2 ^ e <? 2 ^ (e - 1)); [nia|].
  destruct (2 ^ (e - 1) <? x mod 2 ^ e); [nia|].
  destruct (Z.even (x / 2 ^ e)); nia.
Qed.

(** Within the safe range the next nonce is the last one plus one. *)
Lemma next_nonce_succ (lastNonce now : Z) :
  0 < lastNonce < MAX_SAFE_INTEGER ->
  ClassClient.next_nonce lastNonce now = lastNonce + 1.
Proof.
  intros H. unfold ClassClient.next_nonce, truthy, num_add.
  destruct (Z.eqb_spec lastNonce 0); [lia|]. cbn [negb].
  apply num_round_safe. lia.
Qed.

Lemma next_nonce_positive (lastNonce now : Z) :
  0 < lastNonce -> 0 < ClassClient.next_nonce lastNonce now.
Proof.
  intros H. unfold ClassClient.next_nonce, truthy, num_add.
  destruct (Z.eqb_spec lastNonce 0); [lia|]. cbn [negb].
  apply num_round_positive. lia.
Qed.

(** A private call of the class whose parameters hold no truthy nonce. *)
Lemma class_private_allocates {P : Platform} (c : ClassClient.KrakenClient)
    (now : Z) (method : jsstring) (params : option object) (callback : bool) :
  truthy (lookup (bag params) (lit "nonce")) = false ->
  let '(c', params', p) :=
    ClassClient._privateMethod c now method params callback in
  let n := ClassClient.next_nonce (ClassClient._lastNonce c) now in
  let config := ClassClient._config c in
  c' = {| ClassClient._config := config; ClassClient._lastNonce := n |}
  /\ lookup params' (lit "nonce") = VNum n
  /\ (otp config <> VUndefined -> lookup params' (lit "otp") = otp config)
  /\ opt_form (sent p) = params'
  /\ opt_url (sent p) = url config ++ private_path config method
  /\ lookup (opt_headers (sent p)) (lit "API-Sign")
     = VStr (ClassClient._getMessageSignature c'
               (private_path config method) params' (VNum n)).
Proof.
  intros Hfalsy. unfold ClassClient._privateMethod. fold (bag params).
  rewrite Hfalsy. cbn [negb]. cbv zeta.
  set (allocated := assign (bag params) (lit "nonce") _).
  assert (Hn : lookup (inject_otp (ClassClient._config c) allocated)
                 (lit "nonce")
               = VNum (ClassClient.next_nonce (ClassClient._lastNonce c) now)).
  { rewrite inject_otp_nonce. apply lookup_assign_same. }
  split; [reflexivity|]. split; [exact Hn|].
  split; [apply inject_otp_otp|].
  split; [reflexivity|]. split; [reflexivity|].
  rewrite Hn. reflexivity.
Qed.

(** The same for the closures of the constructor function: the nonce is the
    clock, and there is no counter to advance. *)
Lemma closure_private_allocates {P : Platform}
    (f : ClosureClient.KrakenClient) (now : Z) (method : jsstring)
    (params : option object) (callback : bool) :
  truthy (lookup (bag params) (lit "nonce")) = false ->
  let '(params', p) :=
    ClosureClient.privateMethod f now method params callback in
  let n := num_mul now 1000 in
  let config := ClosureClient.config f in
  lookup params' (lit "nonce") = VNum n
  /\ (otp config <> VUndefined -> lookup params' (lit "otp") = otp config)
  /\ opt_form (sent p) = params'
  /\ opt_url (sent p) = url config ++ private_path config method
  /\ lookup (opt_headers (sent p)) (lit "API-Sign")
     = VStr (ClosureClient.getMessageSignature f
               (private_path config method) params' (VNum n)).
Proof.
  intros Hfalsy. unfold ClosureClient.privateMethod. fold (bag params).
  rewrite Hfalsy. cbn [negb]. cbv zeta.
  set (allocated := assign (bag params) (lit "nonce") _).
  assert (Hn : lookup (inject_otp (ClosureClient.config f) allocated)
                 (lit "nonce")
               = VNum (num_mul now 1000)).
  { rewrite inject_otp_nonce. apply lookup_assign_same. }
  split; [exact Hn|]. split; [apply inject_otp_otp|].
  split; [reflexivity|]. split; [reflexivity|].
  rewrite Hn. reflexivity.
Qed.

(** C8. A private call without a nonce of the caller's allocates one nonce:
    the counter of the class moves to it in one step (the constructor
    function has no counter and takes the clock); that number is the [nonce]
    of the parameter object, which is both the object the signature is
    computed over, after the nonce and the one-time password are in, and the
    form of the request posted, under the path the URL ends with. *)
Theorem allocated_nonce_signed_and_sent {P : Platform}
    (c : ClassClient.KrakenClient) (f : ClosureClient.KrakenClient)
    (now : Z) (method : jsstring) (params : option object) (callback : bool) :
  lookup (bag params) (lit "nonce") = VUndefined ->
  (let '(c', params', p) :=
     ClassClient._privateMethod c now method params callback in
   let n := ClassClient.next_nonce (ClassClient._lastNonce c) now in
   let config := ClassClient._config c in
   ClassClient._lastNonce c' = n
   /\ ClassClient._config c' = config
   /\ lookup params' (lit "nonce") = VNum n
   /\ (otp config <> VUndefined -> lookup params' (lit "otp") = otp config)
   /\ opt_form (sent p) = params'
   /\ opt_url (sent p) = url config ++ private_path config method
   /\ lookup (opt_headers (sent p)) (lit "API-Sign")
      = VStr (ClassClient._getMessageSignature c'
                (private_path config method) params' (VNum n)))
  /\ (let '(params', p) :=
        ClosureClient.privateMethod f now method params callback in
      let n := num_mul now 1000 in
      let config := ClosureClient.config f in
      lookup params' (lit "nonce") = VNum n
      /\ (otp config <> VUndefined -> lookup params' (lit "otp") = otp config)
      /\ opt_form (sent p) = params'
      /\ opt_url (sent p) = url config ++ private_path config method
      /\ lookup (opt_headers (sent p)) (lit "API-Sign")
         = VStr (ClosureClient.getMessageSignature f
                   (private_path config method) params' (VNum n))).
Proof.
  intros Habsent.
  assert (Hfalsy : truthy (lookup (bag params) (lit "nonce")) = false)
    by now rewrite Habsent.
  split.
  - pose proof (class_private_allocates c now method params callback Hfalsy)
      as H.
    destruct (ClassClient._privateMethod c now method params callback)
      as [[c' params'] p].
    cbv zeta in H |- *. destruct H as (-> & H). tauto.
  - exact (closure_private_allocates f now method params callback Hfalsy).
Qed.

Lemma allocated_nonce_signed_and_sent_witness :
  let c := {| ClassClient._config := example_config;
              ClassClient._lastNonce := 1700000000000000 |} in
  let f := {| ClosureClient.config := example_config |} in
  let r := @ClassClient._privateMethod example_platform c 1700000000005
             (lit "Balance") None false in
  lookup (bag None) (lit "nonce") = VUndefined
  /\ ClassClient._lastNonce (fst (fst r)) = 1700000000000001
  /\ lookup (snd (fst r)) (lit "nonce") = VNum 1700000000000001
  /\ opt_form (sent (snd r)) = snd (fst r).
Proof.
  intros c f r.
  pose proof (proj1 (@allocated_nonce_signed_and_sent example_platform c f
                       1700000000005 (lit "Balance") None false eq_refl))
    as H.
  vm_compute in H. destruct H as (H1 & _ & H3 & _ & H5 & _).
  split; [reflexivity|]. split; [exact H1|]. split; [exact H3|exact H5].
Defined.

(** C9. A falsy [nonce] of the caller ([0], the empty string, [null],
    [false]) counts as none: the call puts a fresh nonce in its place, which
    is the one transmitted, and the class moves its counter to it; the fresh
    nonce is positive whenever the counter (for the constructor function, the
    clock) is, so the [0] of the caller is not what is sent. *)
Theorem falsy_nonce_is_replaced {P : Platform}
    (c : ClassClient.KrakenClient) (f : ClosureClient.KrakenClient)
    (now : Z) (method : jsstring) (params : object) (callback : bool) :
  truthy (lookup params (lit "nonce")) = false ->
  (let '(c', params', p) :=
     ClassClient._privateMethod c now method (Some params) callback in
   let n := ClassClient.next_nonce (ClassClient._lastNonce c) now in
   lookup params' (lit "nonce") = VNum n
   /\ lookup (opt_form (sent p)) (lit "nonce") = VNum n
   /\ ClassClient._lastNonce c' = n
   /\ (0 < ClassClient._lastNonce c -> 0 < n)
   /\ (0 < ClassClient._lastNonce c < MAX_SAFE_INTEGER ->
       n = ClassClient._lastNonce c + 1))
  /\ (let '(params', p) :=
        ClosureClient.privateMethod f now method (Some params) callback in
      let n := num_mul now 1000 in
      lookup params' (lit "nonce") = VNum n
      /\ lookup (opt_form (sent p)) (lit "nonce") = VNum n
      /\ (0 < now -> 0 < n)).
Proof.
  intros Hfalsy. split.
  - pose proof (class_private_allocates c now method (Some params) callback
                  Hfalsy) as H.
    destruct (ClassClient._privateMethod c now method (Some params) callback)
      as [[c' params'] p].
    cbv zeta in H |- *. destruct H as (-> & Hn & _ & Hform & _).
    rewrite Hform. repeat split; try assumption.
    + apply next_nonce_positive.
    + apply next_nonce_succ.
  - pose proof (closure_private_allocates f now method (Some params) callback
                  Hfalsy) as H.
    destruct (ClosureClient.privateMethod f now method (Some params) callback)
      as [params' p].
    cbv zeta in H |- *. destruct H as (Hn & _ & Hform & _).
    rewrite Hform. repeat split; try assumption.
    intros Hnow. apply num_round_positive. lia.
Qed.

Lemma falsy_nonce_is_replaced_witness :
  let c := {| ClassClient._config := example_config;
              ClassClient._lastNonce := 1700000000000000 |} in
  let params := [(lit "pair", VStr (lit "XBTEUR")); (lit "nonce", VNum 0)] in
  let r := @ClassClient._privateMethod example_platform c 1700000000005
             (lit "Balance") (Some params) false in
  truthy (lookup params (lit "nonce")) = false
  /\ lookup (opt_form (sent (snd r))) (lit "nonce") = VNum 1700000000000001
  /\ ClassClient._lastNonce (fst (fst r)) = 1700000000000001.
Proof.
  intros c params r.
  pose proof (proj1 (@falsy_nonce_is_replaced example_platform c
                       {| ClosureClient.config := example_config |}
                       1700000000005 (lit "Balance") params false eq_refl))
    as H.
  vm_compute in H. destruct H as (_ & H2 & H3 & _).
  split; [reflexivity|]. split; [exact H2|exact H3].
Defined.

(** C7, as stated, fails: a nonce that the bag contains but that is falsy is
    not used as it is, and the counter moves. With [{nonce: 0}] the class
    sends its own next nonce. *)
Lemma supplied_zero_nonce_is_not_kept :
  ~ (forall (P : Platform) (c : ClassClient.KrakenClient) (now : Z)
            (method : jsstring) (params : object) (callback : bool)
            (supplied : value),
        lookup params (lit "nonce") = supplied ->
        supplied <> VUndefined ->
        let '(c', params', _) :=
          ClassClient._privateMethod c now method (Some params) callback in
        lookup params' (lit "nonce") = supplied /\ c' = c).
Proof.
  intros H.
  specialize (H example_platform
                {| ClassClient._config := example_config;
                   ClassClient._lastNonce := 1700000000000000 |}
                1700000000005 (lit "Balance") [(lit "nonce", VNum 0)] false
                (VNum 0) eq_refl).
  assert (Hne : VNum 0 <> VUndefined) by discriminate.
  specialize (H Hne). vm_compute in H. destruct H as [H _]. discriminate H.
Qed.

(** C7, amended. A private call whose parameter bag holds a truthy [nonce]
    uses it as it is, whatever it is (no comparison with the nonces issued
    before): it is the nonce of the object signed and sent, and the instance,
    counter and configuration, is as before. *)
Theorem truthy_nonce_is_kept {P : Platform}
    (c : ClassClient.KrakenClient) (f : ClosureClient.KrakenClient)
    (now : Z) (method : jsstring) (params : option object) (callback : bool) :
  truthy (lookup (bag params) (lit "nonce")) = true ->
  (let '(c', params', p) :=
     ClassClient._privateMethod c now method params callback in
   let config := ClassClient._config c in
   c' = c
   /\ lookup params' (lit "nonce") = lookup (bag params) (lit "nonce")
   /\ opt_form (sent p) = params'
   /\ lookup (opt_headers (sent p)) (lit "API-Sign")
      = VStr (ClassClient._getMessageSignature c
                (private_path config method) params'
                (lookup (bag params) (lit "nonce"))))
  /\ (let '(params', p) :=
        ClosureClient.privateMethod f now method params callback in
      lookup params' (lit "nonce") = lookup (bag params) (lit "nonce")
      /\ opt_form (sent p) = params').
Proof.
  intros Htruthy. split.
  - unfold ClassClient._privateMethod. fold (bag params).
    rewrite Htruthy. cbn [negb]. cbv zeta.
    split; [reflexivity|]. split; [apply inject_otp_nonce|].
    split; [reflexivity|]. rewrite inject_otp_nonce. reflexivity.
  - unfold ClosureClient.privateMethod. fold (bag params).
    rewrite Htruthy. cbn [negb]. cbv zeta.
    split; [apply inject_otp_nonce | reflexivity].
Qed.

Lemma truthy_nonce_is_kept_witness :
  let c := {| ClassClient._config := example_config;
              ClassClient._lastNonce := 1700000000000000 |} in
  let params := Some [(lit "nonce", VNum 7)] in
  let r := @ClassClient._privateMethod example_platform c 1700000000005
             (lit "Balance") params false in
  truthy (lookup (bag params) (lit "nonce")) = true
  /\ fst (fst r) = c
  /\ lookup (snd (fst r)) (lit "nonce") = VNum 7.
Proof.
  intros c params r.
  pose proof (proj1 (@truthy_nonce_is_kept example_platform c
                       {| ClosureClient.config := example_config |}
                       1700000000005 (lit "Balance") params false eq_refl))
    as H.
  vm_compute in H. destruct H as (H1 & H2 & _).
  split; [reflexivity|]. split; [exact H1|exact H2].
Defined.

(** *** Sequences of nonces *)

Lemma class_nonces_cons {P : Platform} (c : ClassClient.KrakenClient)
    (method : jsstring) (now : Z) (later : list Z) :
  Run.class_nonces c method (now :: later)
  = VNum (ClassClient.next_nonce (ClassClient._lastNonce c) now)
      :: Run.class_nonces
           {| ClassClient._config := ClassClient._config c;
              ClassClient._lastNonce :=
                ClassClient.next_nonce (ClassClient._lastNonce c) now |}
           method later.
Proof.
  cbn [Run.class_nonces].
  pose proof (class_private_allocates c now method None false eq_refl) as H.
  destruct (ClassClient._privateMethod c now method None false)
    as [[c' params'] p].
  cbv zeta in H. destruct H as (-> & -> & _). reflexivity.
Qed.

Lemma count_from_increasing (n : Z) (k : nat) :
  strictly_increasing (map VNum (count_from n k)).
Proof.
  revert n. induction k as [|k IH]; intros n; simpl; [exact I|].
  specialize (IH (n + 1)). destruct k as [|k]; simpl in *; [exact I|].
  split; [lia | exact IH].
Qed.

(** The class, while its counter stays in the safe range: the nonces of [N]
    calls are the [N] integers after the counter, whatever the clock reads. *)
Lemma class_nonces_count {P : Platform} (method : jsstring) (clock : list Z) :
  forall c : ClassClient.KrakenClient,
  0 < ClassClient._lastNonce c ->
  ClassClient._lastNonce c + Z.of_nat (List.length clock) <= MAX_SAFE_INTEGER ->
  Run.class_nonces c method clock
  = map VNum (count_from (ClassClient._lastNonce c + 1) (List.length clock)).
Proof.
  induction clock as [|now later IH]; intros c Hpos Hsafe; [reflexivity|].
  rewrite class_nonces_cons.
  cbn [List.length] in Hsafe |- *. rewrite Nat2Z.inj_succ in Hsafe.
  cbn [count_from map].
  rewrite next_nonce_succ by lia.
  rewrite IH; cbn [ClassClient._lastNonce]; [reflexivity | lia | lia].
Qed.

(** X16. The class issues strictly increasing nonces, the first one from the
    clock of the construction in microseconds, as long as the clock is past
    the epoch and the nonces stay in the safe range: the nonces of [N] calls
    are the [N] integers after the clock of the construction times 1000,
    whatever the clock reads during the calls. *)
Lemma class_nonces_strictly_increasing {P : Platform}
    (key secret : jsstring) (options : value) (created : Z)
    (c : ClassClient.KrakenClient) (method : jsstring) (clock : list Z) :
  0 < created ->
  created * 1000 + Z.of_nat (List.length clock) <= MAX_SAFE_INTEGER ->
  ClassClient.constructor key secret options created = Normal c ->
  Run.class_nonces c method clock
  = map VNum (count_from (created * 1000 + 1) (List.length clock))
  /\ strictly_increasing (Run.class_nonces c method clock).
Proof.
  intros Hpos Hsafe Hc.
  assert (Hlast : ClassClient._lastNonce c = created * 1000).
  { unfold ClassClient.constructor in Hc.
    destruct (make_config key secret _) as [config|e]; [|discriminate].
    injection Hc as <-. cbn [ClassClient._lastNonce].
    unfold num_mul. apply num_round_safe. lia. }
  assert (Heq : Run.class_nonces c method clock
                = map VNum (count_from (created * 1000 + 1) (List.length clock))).
  { rewrite <- Hlast. apply class_nonces_count; lia. }
  split; [exact Heq|]. rewrite Heq. apply count_from_increasing.
Qed.

Lemma closure_nonces_clock {P : Platform} (f : ClosureClient.KrakenClient)
    (method : jsstring) (clock : list Z) :
  Run.closure_nonces f method clock
  = map (fun now => VNum (num_mul now 1000)) clock.
Proof.
  induction clock as [|now later IH]; [reflexivity|].
  cbn [Run.closure_nonces map].
  pose proof (closure_private_allocates f now method None false eq_refl) as H.
  destruct (ClosureClient.privateMethod f now method None false)
    as [params' p].
  cbv zeta in H. destruct H as (-> & _). now rewrite IH.
Qed.

(** C3. The closures of the constructor function keep no counter: two private
    calls during which the clock reads the same millisecond [now] get the
    same nonce, [now * 1000], so the sequence of nonces is not strictly
    increasing. *)
Theorem closure_nonces_repeat {P : Platform} (f : ClosureClient.KrakenClient)
    (method : jsstring) (now : Z) :
  Run.closure_nonces f method [now; now]
  = [VNum (num_mul now 1000); VNum (num_mul now 1000)]
  /\ ~ strictly_increasing (Run.closure_nonces f method [now; now]).
Proof.
  rewrite closure_nonces_clock. cbn [map strictly_increasing].
  split; [reflexivity|]. intros [H _]. lia.
Qed.

(** The counter of the class stays positive once it is. *)
Lemma lastNonce_stays_positive {P : Platform} (c : ClassClient.KrakenClient)
    (now : Z) (method : jsstring) (params : option object) (callback : bool) :
  0 < ClassClient._lastNonce c ->
  0 < ClassClient._lastNonce
        (fst (fst (ClassClient._privateMethod c now method params callback))).
Proof.
  intros Hpos.
  destruct (truthy (lookup (bag params) (lit "nonce"))) eqn:E.
  - unfold ClassClient._privateMethod. fold (bag params).
    rewrite E. exact Hpos.
  - pose proof (class_private_allocates c now method params callback E) as H.
    destruct (ClassClient._privateMethod c now method params callback)
      as [[c' params'] p].
    cbv zeta in H. destruct H as (-> & _).
    cbn [fst ClassClient._lastNonce]. now apply next_nonce_positive.
Qed.

(** Beyond the safe range the counter no longer moves: [2^53 + 1] is not a
    double and rounds back to [2^53]. *)
Example next_nonce_sticks (now : Z) :
  ClassClient.next_nonce (2 ^ 53) now = 2 ^ 53.
Proof. reflexivity. Qed.

(** X17. The call writes the nonce into the caller's own object. Handing
    that object to a second call therefore brings a nonce: the second call
    sends the nonce of the first and leaves the counter where the first put
    it. *)
Lemma reused_params_keep_nonce {P : Platform} (c : ClassClient.KrakenClient)
    (now now' : Z) (method : jsstring) (callback : bool) :
  0 < ClassClient._lastNonce c ->
  let '(c1, params1, _) :=
    ClassClient._privateMethod c now method None callback in
  let '(c2, params2, _) :=
    ClassClient._privateMethod c1 now' method (Some params1) callback in
  c2 = c1 /\ lookup params2 (lit "nonce") = lookup params1 (lit "nonce").
Proof.
  intros Hpos.
  pose proof (class_private_allocates c now method None callback eq_refl) as H.
  destruct (ClassClient._privateMethod c now method None callback)
    as [[c1 params1] p1].
  cbv zeta in H. destruct H as (_ & Hn & _).
  assert (Htruthy : truthy (lookup params1 (lit "nonce")) = true).
  { rewrite Hn. cbn [truthy].
    pose proof (next_nonce_positive (ClassClient._lastNonce c) now Hpos).
    destruct (Z.eqb_spec
                (ClassClient.next_nonce (ClassClient._lastNonce c) now) 0);
      [lia | reflexivity]. }
  unfold ClassClient._privateMethod. rewrite Htruthy. cbn [negb]. cbv zeta.
  split; [reflexivity | apply inject_otp_nonce].
Qed.

(** A public call carries the user agent as its only header and leaves the
    instance and the parameters as they are. *)
Lemma public_call_unsigned {P : Platform} (c : ClassClient.KrakenClient)
    (method : jsstring) (params : option object) (callback : bool) :
  let '(c', params', p) := ClassClient._publicMethod c method params callback in
  c' = c
  /\ params' = bag params
  /\ opt_form (sent p) = bag params
  /\ opt_headers (sent p)
     = [(lit "User-Agent", VStr (lit "Kraken Javascript API Client"))].
Proof. repeat split. Qed.

(** * Further properties of the reply handler *)

Lemma forEach_element_only_TypeError (krakenError : value)
    (elements : list value) (e : exn) :
  forEach_element krakenError elements = Throw e -> e = TypeError.
Proof.
  revert krakenError.
  induction elements as [|element rest IH]; intros krakenError; simpl.
  - discriminate.
  - destruct element; try (intros [= <-]; reflexivity).
    destruct (charAt0_is_E s); apply IH.
Qed.

Lemma forEach_element_non_string (krakenError : value)
    (before : list jsstring) (x : value) (after : list value) :
  (forall s, x <> VStr s) ->
  forEach_element krakenError (map VStr before ++ x :: after)
  = Throw TypeError.
Proof.
  intros Hx. revert krakenError.
  induction before as [|s before IH]; intros krakenError; simpl.
  - destruct x; try reflexivity. now destruct (Hx s).
  - destruct (charAt0_is_E s); apply IH.
Qed.

Lemma member_only_TypeError (data : value) (k : jsstring) (e : exn) :
  member data k = Throw e -> e = TypeError.
Proof. destruct data; simpl; congruence. Qed.

Lemma error_entries_array (first : value) (others : list value) :
  error_entries (VArr (first :: others)) = Some (first :: others).
Proof. reflexivity. Qed.

(** X1. When every entry of a non-empty [error] array is a string, the code
    reported is that of the last entry that begins with [E], provided the
    code is not empty: the handler fails with [RemoteError] of that entry
    without its first character. *)
Theorem error_code_is_last_match {P : Platform} (self callback : bool)
    (data : value) (before after : list jsstring) (entry : jsstring) :
  member data (lit "error")
    = Normal (VArr (map VStr (before ++ entry :: after))) ->
  charAt0_is_E entry = true ->
  substr1 entry <> [] ->
  Forall (fun s => charAt0_is_E s = false) after ->
  on_parsed self callback data
  = fail self callback (RemoteError (substr1 entry)).
Proof.
  intros Hm He Hcode Hafter. unfold on_parsed. rewrite Hm.
  assert (Hentries : error_entries (VArr (map VStr (before ++ entry :: after)))
                     = Some (map VStr (before ++ entry :: after))).
  { destruct before; reflexivity. }
  rewrite Hentries, (forEach_element_last_match VNull before after entry He
                       Hafter).
  cbn [truthy ToString]. destruct (substr1 entry); [congruence|reflexivity].
Qed.

Lemma error_code_is_last_match_witness :
  let data :=
    VObj [(lit "error",
           VArr [VStr (lit "EAPI:Invalid key"); VStr (lit "WDeprecated");
                 VStr (lit "EOrder:Insufficient funds");
                 VStr (lit "WSlow")])] in
  member data (lit "error")
    = Normal (VArr (map VStr ([lit "EAPI:Invalid key"; lit "WDeprecated"]
                                ++ lit "EOrder:Insufficient funds"
                                     :: [lit "WSlow"])))
  /\ charAt0_is_E (lit "EOrder:Insufficient funds") = true
  /\ substr1 (lit "EOrder:Insufficient funds") <> []
  /\ Forall (fun s => charAt0_is_E s = false) [lit "WSlow"]
  /\ @on_parsed example_platform true false data
     = [Reject (RemoteError (lit "Order:Insufficient funds"))].
Proof.
  intros data.
  assert (H3 : substr1 (lit "EOrder:Insufficient funds") <> [])
    by discriminate.
  assert (H4 : Forall (fun s => charAt0_is_E s = false) [lit "WSlow"])
    by (constructor; [reflexivity | constructor]).
  split; [reflexivity|]. split; [reflexivity|].
  split; [exact H3|]. split; [exact H4|].
  exact (@error_code_is_last_match example_platform true false data
           [lit "EAPI:Invalid key"; lit "WDeprecated"] [lit "WSlow"]
           (lit "EOrder:Insufficient funds") eq_refl eq_refl H3 H4).
Defined.

(** X2. When every entry of a non-empty [error] array is a string and none
    begins with [E], the handler fails with [UnknownRemoteError] holding the
    whole array. *)
Theorem no_E_entry_is_unknown {P : Platform} (self callback : bool)
    (data : value) (entries : list jsstring) :
  member data (lit "error") = Normal (VArr (map VStr entries)) ->
  entries <> [] ->
  Forall (fun s => charAt0_is_E s = false) entries ->
  on_parsed self callback data
  = fail self callback (UnknownRemoteError (map VStr entries)).
Proof.
  intros Hm Hne Hall.
  apply no_code_is_unknown_error
    with (e := VArr (map VStr entries)) (krakenError := VNull).
  - exact Hm.
  - destruct entries; [congruence | reflexivity].
  - now apply forEach_element_skips.
  - reflexivity.
Qed.

Lemma no_E_entry_is_unknown_witness :
  let entries := [lit "WDeprecated"; lit "Unparseable"] in
  let data := VObj [(lit "error", VArr (map VStr entries))] in
  member data (lit "error") = Normal (VArr (map VStr entries))
  /\ entries <> []
  /\ Forall (fun s => charAt0_is_E s = false) entries
  /\ @on_parsed example_platform true false data
     = [Reject (@UnknownRemoteError example_platform (map VStr entries))].
Proof.
  intros entries data.
  assert (H2 : entries <> []) by discriminate.
  assert (H3 : Forall (fun s => charAt0_is_E s = false) entries)
    by (repeat constructor).
  split; [reflexivity|]. split; [exact H2|]. split; [exact H3|].
  exact (@no_E_entry_is_unknown example_platform true false data entries
           eq_refl H2 H3).
Defined.

(** X3. When the [error] array holds an entry that is not a string, with
    strings only before it, the handler throws a [TypeError] and does nothing
    else: the promise stays pending and the callback is not called, whatever
    the other entries are. *)
Theorem non_string_entry_throws {P : Platform} (self callback : bool)
    (data : value) (before : list jsstring) (x : value) (after : list value) :
  member data (lit "error") = Normal (VArr (map VStr before ++ x :: after)) ->
  (forall s, x <> VStr s) ->
  on_parsed self callback data = [Uncaught TypeError]
  /\ settle (on_parsed self callback data) = Pending
  /\ callback_calls (on_parsed self callback data) = O.
Proof.
  intros Hm Hx.
  assert (H : on_parsed self callback data = [Uncaught TypeError]).
  { unfold on_parsed. rewrite Hm.
    assert (Hentries : error_entries (VArr (map VStr before ++ x :: after))
                       = Some (map VStr before ++ x :: after)).
    { destruct before; reflexivity. }
    rewrite Hentries, (forEach_element_non_string VNull before x after Hx).
    reflexivity. }
  rewrite H. repeat split.
Qed.

Lemma non_string_entry_throws_witness :
  let data :=
    VObj [(lit "error",
           VArr [VStr (lit "EGeneral:Internal error"); VNull;
                 VStr (lit "EService:Busy")])] in
  member data (lit "error")
    = Normal (VArr (map VStr [lit "EGeneral:Internal error"]
                      ++ VNull :: [VStr (lit "EService:Busy")]))
  /\ (forall s, VNull <> VStr s)
  /\ @on_parsed example_platform true true data = [Uncaught TypeError].
Proof.
  intros data.
  assert (H2 : forall s, VNull <> VStr s) by discriminate.
  split; [reflexivity|]. split; [exact H2|].
  exact (proj1 (@non_string_entry_throws example_platform true true data
                  [lit "EGeneral:Internal error"] VNull
                  [VStr (lit "EService:Busy")] eq_refl H2)).
Defined.

Lemma settle_fail (self callback : bool) (err : exn) :
  settle (fail self callback err)
  = if callback then Fulfilled VUndefined else Rejected err.
Proof. destruct callback; reflexivity. Qed.

Lemma settlements_fail (self callback : bool) (err : exn) :
  settlements (fail self callback err) = 1%nat.
Proof. destruct callback, self; reflexivity. Qed.

(** A success never yields [undefined]. *)
Lemma success_value_defined {P : Platform} (error : value) (body : jsstring)
    (v : value) :
  call_outcome error body (Success v) -> v <> VUndefined.
Proof.
  intros Ho. inversion Ho as [ | | | | data e result _ _ Hm _ _ Hv].
  unfold js_or. destruct (truthy result) eqn:E.
  - intros ->. discriminate E.
  - intros ->. discriminate Hm.
Qed.

(** X4. Whatever the transport hands over, the handler either classifies the
    reply as one of the four outcomes, and then settles the promise, or
    throws a [TypeError] and does nothing else. *)
Theorem reply_is_classified_or_throws {P : Platform} (self callback : bool)
    (error : value) (body : jsstring) :
  (exists o, call_outcome error body o
             /\ settle (on_reply self callback error body) <> Pending)
  \/ on_reply self callback error body = [Uncaught TypeError].
Proof.
  destruct (truthy error) eqn:Herr.
  { left. exists (Failure (TransportError error)).
    split; [now constructor|].
    unfold on_reply. rewrite Herr.
    fold (TransportError error). rewrite settle_fail.
    destruct callback; discriminate. }
  destruct (JSON_parse body) as [data|] eqn:Hparse.
  2:{ left. exists (Failure (ProtocolError body)).
      split; [now constructor|].
      unfold on_reply. rewrite Herr, Hparse.
      fold (ProtocolError body). rewrite settle_fail.
      destruct callback; discriminate. }
  destruct (member data (lit "error")) as [e|x] eqn:Hm.
  2:{ right. unfold on_reply, on_parsed. rewrite Herr, Hparse, Hm.
      now rewrite (member_only_TypeError _ _ _ Hm). }
  destruct (error_entries e) as [entries|] eqn:He.
  - destruct (forEach_element VNull entries) as [code|x] eqn:Hf.
    + left. destruct (truthy code) eqn:Ht.
      * exists (Failure (RemoteError (ToString code))).
        split; [now apply remote_error with data e entries|].
        rewrite (on_reply_outcome self callback error body
                   (Failure (RemoteError (ToString code))));
          [|now apply remote_error with data e entries].
        rewrite settle_fail. destruct callback; discriminate.
      * exists (Failure (UnknownRemoteError entries)).
        split; [now apply unknown_remote_error with data e code|].
        rewrite (on_reply_outcome self callback error body
                   (Failure (UnknownRemoteError entries)));
          [|now apply unknown_remote_error with data e code].
        rewrite settle_fail. destruct callback; discriminate.
    + right. unfold on_reply, on_parsed. rewrite Herr, Hparse, Hm, He, Hf.
      now rewrite (forEach_element_only_TypeError _ _ _ Hf).
  - left. destruct (member_normal data _ (lit "result") e Hm) as [result Hr].
    exists (Success (js_or result data)).
    split; [now apply success with e|].
    rewrite (on_reply_outcome self callback error body
               (Success (js_or result data)));
      [|now apply success with e].
    discriminate.
Qed.

(** X5. A reply whose body parses to [null] makes the handler throw when it
    reads [data.error]: the promise is never settled and the callback never
    called. *)
Theorem null_body_is_silent {P : Platform} (self callback : bool)
    (error : value) (body : jsstring) :
  truthy error = false ->
  JSON_parse body = Some VNull ->
  on_reply self callback error body = [Uncaught TypeError]
  /\ settle (on_reply self callback error body) = Pending
  /\ callback_calls (on_reply self callback error body) = O.
Proof.
  intros Herr Hparse.
  assert (H : on_reply self callback error body = [Uncaught TypeError]).
  { unfold on_reply. now rewrite Herr, Hparse. }
  rewrite H. repeat split.
Qed.

Lemma null_body_is_silent_witness :
  truthy VNull = false
  /\ @JSON_parse example_platform (lit "null") = Some VNull
  /\ @on_reply example_platform true true VNull (lit "null")
     = [Uncaught TypeError].
Proof.
  split; [reflexivity|]. split; [reflexivity|].
  exact (proj1 (@null_body_is_silent example_platform true true VNull
                  (lit "null") eq_refl eq_refl)).
Defined.

(** X6. In the class, on a host whose global scope has no [self], a call
    given a callback never calls it: on each of the four outcomes the handler
    settles the promise (with no value on a failure, with the value on a
    success) and then throws a [ReferenceError]. A failure thus reaches
    neither the callback nor a rejection. *)
Theorem class_callback_never_called {P : Platform}
    (c : ClassClient.KrakenClient) (url : jsstring) (headers params : object)
    (error : value) (body : jsstring) (o : outcome) :
  global_self = false ->
  call_outcome error body o ->
  let trace :=
    handler (ClassClient._rawRequest c url headers params true) error body in
  trace = [Resolve match o with
                   | Failure _ => VUndefined
                   | Success v => v
                   end;
           Uncaught ReferenceError]
  /\ callback_calls trace = O
  /\ (forall err, ~ reports trace err).
Proof.
  intros Hself Ho trace.
  assert (H : trace = [Resolve match o with
                               | Failure _ => VUndefined
                               | Success v => v
                               end;
                       Uncaught ReferenceError]).
  { subst trace. unfold ClassClient._rawRequest, post_request.
    cbn [handler].
    rewrite (on_reply_outcome global_self true error body o Ho), Hself.
    destruct o; reflexivity. }
  rewrite H. split; [reflexivity|]. split; [reflexivity|].
  intros err [Hc|Hr].
  - destruct Hc as [Hc|[Hc|[]]]; discriminate Hc.
  - destruct Hr as [Hr|[Hr|[]]]; discriminate Hr.
Qed.

Lemma class_callback_never_called_witness :
  let c := {| ClassClient._config := example_config;
              ClassClient._lastNonce := 1700000000000000 |} in
  let url := lit "https://api.kraken.com/0/public/Time" in
  @global_self example_platform = false
  /\ @call_outcome example_platform VNull (lit "<html>")
       (Failure (ProtocolError (lit "<html>")))
  /\ handler (@ClassClient._rawRequest example_platform c url [] [] true)
       VNull (lit "<html>")
     = [Resolve VUndefined; Uncaught ReferenceError].
Proof.
  intros c url.
  assert (Ho : @call_outcome example_platform VNull (lit "<html>")
                 (Failure (ProtocolError (lit "<html>")))).
  { exact (@unparseable_body example_platform VNull (lit "<html>")
             eq_refl eq_refl). }
  split; [reflexivity|]. split; [exact Ho|].
  exact (proj1 (@class_callback_never_called example_platform c url [] []
                  VNull (lit "<html>") _ eq_refl Ho)).
Defined.

(** X7. On each of the four outcomes the handler settles the promise exactly
    once, in both variants, with or without a callback, whether or not [self]
    is bound: it never resolves and rejects, and never resolves twice. *)
Theorem promise_settled_once {P : Platform} (self callback : bool)
    (error : value) (body : jsstring) (o : outcome) :
  call_outcome error body o ->
  settlements (on_reply self callback error body) = 1%nat.
Proof.
  intros Ho. rewrite (on_reply_outcome self callback error body o Ho).
  destruct o as [err|v].
  - apply settlements_fail.
  - destruct callback, self; reflexivity.
Qed.

Lemma promise_settled_once_witness :
  @call_outcome example_platform VNull (lit "{}") (Success (VObj []))
  /\ settlements (@on_reply example_platform false true VNull (lit "{}"))
     = 1%nat.
Proof.
  assert (Ho : @call_outcome example_platform VNull (lit "{}")
                 (Success (VObj []))).
  { exact (@success example_platform VNull (lit "{}") (VObj []) VUndefined
             VUndefined eq_refl eq_refl eq_refl eq_refl eq_refl). }
  split; [exact Ho|].
  exact (@promise_settled_once example_platform false true VNull (lit "{}")
           _ Ho).
Defined.

(** X8. Without a callback the handler never looks at [self]: the class and
    the constructor function then do the same on every reply, the callback
    is not called, and the only exception the handler can throw is a
    [TypeError]. *)
Theorem no_callback_variants_agree {P : Platform}
    (c : ClassClient.KrakenClient) (f : ClosureClient.KrakenClient)
    (url url' : jsstring) (headers headers' params params' : object)
    (error : value) (body : jsstring) :
  let trace :=
    handler (ClassClient._rawRequest c url headers params false) error body in
  trace
  = handler (ClosureClient.rawRequest f url' headers' params' false)
      error body
  /\ callback_calls trace = O
  /\ ~ In (Uncaught ReferenceError) trace.
Proof.
  intros trace.
  assert (Hagree : forall self, on_reply self false error body
                                = on_reply true false error body)
    by reflexivity.
  split; [apply Hagree|].
  subst trace. unfold ClassClient._rawRequest, post_request. cbn [handler].
  rewrite Hagree. clear Hagree.
  assert (Hquiet : forall err,
             callback_calls (fail true false err) = O
             /\ ~ In (Uncaught ReferenceError) (fail true false err)).
  { intros err. split; [reflexivity|]. intros [H|[]]. discriminate H. }
  assert (Hthrow : callback_calls [Uncaught TypeError] = O
                   /\ ~ In (Uncaught ReferenceError) [Uncaught TypeError]).
  { split; [reflexivity|]. intros [H|[]]. discriminate H. }
  unfold on_reply. destruct (truthy error); [apply Hquiet|].
  destruct (JSON_parse body) as [data|]; [|apply Hquiet].
  unfold on_parsed.
  destruct (member data (lit "error")) as [e|x] eqn:Hm.
  2:{ now rewrite (member_only_TypeError _ _ _ Hm). }
  destruct (error_entries e) as [entries|].
  - destruct (forEach_element VNull entries) as [code|x] eqn:Hf.
    + destruct (truthy code); apply Hquiet.
    + now rewrite (forEach_element_only_TypeError _ _ _ Hf).
  - unfold succeed.
    destruct (member data (lit "result")) as [result|x] eqn:Hr.
    + split; [reflexivity|]. intros [H|[]]. discriminate H.
    + now rewrite (member_only_TypeError _ _ _ Hr).
Qed.

(** X9. With a callback, in the constructor-function variant (or wherever
    [self] is bound), the promise is fulfilled with [undefined] exactly when
    the call failed: a success always fulfils it with a value that is not
    [undefined]. *)
Theorem undefined_means_failure {P : Platform}
    (f : ClosureClient.KrakenClient) (url : jsstring)
    (headers params : object) (error : value) (body : jsstring)
    (o : outcome) :
  call_outcome error body o ->
  settle (handler (ClosureClient.rawRequest f url headers params true)
            error body) = Fulfilled VUndefined
  <-> exists err, o = Failure err.
Proof.
  intros Ho. unfold ClosureClient.rawRequest, post_request. cbn [handler].
  rewrite (on_reply_outcome true true error body o Ho).
  destruct o as [err|v]; cbn [fail callback_call settle].
  - split; [intros _; now exists err | reflexivity].
  - split.
    + intros [= Hv]. now destruct (success_value_defined error body v Ho).
    + intros [err H]. discriminate H.
Qed.

Lemma undefined_means_failure_witness :
  let f := {| ClosureClient.config := example_config |} in
  let url := lit "https://api.kraken.com/0/public/Time" in
  @call_outcome example_platform VNull (lit "<html>")
    (Failure (ProtocolError (lit "<html>")))
  /\ settle (handler (@ClosureClient.rawRequest example_platform f url [] []
                        true) VNull (lit "<html>"))
     = Fulfilled VUndefined.
Proof.
  intros f url.
  assert (Ho : @call_outcome example_platform VNull (lit "<html>")
                 (Failure (ProtocolError (lit "<html>")))).
  { exact (@unparseable_body example_platform VNull (lit "<html>")
             eq_refl eq_refl). }
  split; [exact Ho|].
  apply (proj2 (@undefined_means_failure example_platform f url [] [] VNull
                  (lit "<html>") _ Ho)).
  now exists (ProtocolError (lit "<html>")).
Defined.

(** * Further properties of the calls *)

Lemma indexOf_present (l : list jsstring) (x : jsstring) :
  In x l -> (indexOf l x =? -1) = false.
Proof.
  intros Hin. apply Z.eqb_neq. intros H.
  now apply indexOf_absent in H.
Qed.

(** No name is in both catalogs. *)
Lemma private_not_public (method : jsstring) :
  In method AVAILABLE_METHODS_private ->
  indexOf AVAILABLE_METHODS_public method = -1.
Proof.
  intros H. unfold AVAILABLE_METHODS_private in H. cbn [map In] in H.
  repeat (destruct H as [<-|H]; [reflexivity|]). destruct H.
Qed.

(** X10. A method of the public catalog is sent unsigned: [api] returns
    normally, the instance and the caller's parameters are as before (no
    nonce, no one-time password is written, the counter does not move), and
    the request is a POST to [url/version/public/method] whose only header is
    the user agent, with the parameters as its form and the configured
    timeout. The same holds for the constructor function. *)
Theorem public_call_is_unsigned {P : Platform}
    (c : ClassClient.KrakenClient) (f : ClosureClient.KrakenClient)
    (now : Z) (method : jsstring) (params : option object) (callback : bool) :
  In method AVAILABLE_METHODS_public ->
  (exists p,
      ClassClient.api c now method params callback
      = Normal (c, bag params, p)
      /\ opt_url (sent p)
         = url (ClassClient._config c)
             ++ public_path (ClassClient._config c) method
      /\ opt_method (sent p) = lit "POST"
      /\ opt_headers (sent p)
         = [(lit "User-Agent", VStr (lit "Kraken Javascript API Client"))]
      /\ opt_form (sent p) = bag params
      /\ opt_timeout (sent p) = timeoutMS (ClassClient._config c))
  /\ (exists p,
         ClosureClient.api f now method params callback
         = Normal (bag params, p)
         /\ opt_url (sent p)
            = url (ClosureClient.config f)
                ++ public_path (ClosureClient.config f) method
         /\ opt_method (sent p) = lit "POST"
         /\ opt_headers (sent p)
            = [(lit "User-Agent", VStr (lit "Kraken Javascript API Client"))]
         /\ opt_form (sent p) = bag params
         /\ opt_timeout (sent p) = timeoutMS (ClosureClient.config f)).
Proof.
  intros Hin. apply indexOf_present in Hin.
  unfold ClassClient.api, ClosureClient.api. rewrite Hin. cbn [negb].
  split; eexists; (split; [reflexivity|]); repeat split.
Qed.

Lemma public_call_is_unsigned_witness :
  let c := {| ClassClient._config := example_config;
              ClassClient._lastNonce := 1700000000000000 |} in
  let params := Some [(lit "pair", VStr (lit "XBTEUR"))] in
  In (lit "Ticker") AVAILABLE_METHODS_public
  /\ exists p,
       @ClassClient.api example_platform c 1700000000005 (lit "Ticker")
         params false
       = Normal (c, bag params, p)
       /\ opt_url (sent p) = lit "https://api.kraken.com/0/public/Ticker".
Proof.
  intros c params.
  assert (Hin : In (lit "Ticker") AVAILABLE_METHODS_public).
  { unfold AVAILABLE_METHODS_public. cbn [map In]. do 3 right. left.
    reflexivity. }
  split; [exact Hin|].
  destruct (proj1 (@public_call_is_unsigned example_platform c
                     {| ClosureClient.config := example_config |}
                     1700000000005 (lit "Ticker") params false Hin))
    as (p & Hp & Hurl & _).
  exists p. split; [exact Hp|]. rewrite Hurl. reflexivity.
Defined.

(** X11. A method of the private catalog is sent signed: [api] is
    [_privateMethod], and the request is a POST to
    [url/version/private/method] whose headers are, in this order, the API
    key, the signature and the user agent; the signature is the one of the
    path, the parameters sent and their nonce. *)
Theorem private_call_is_signed {P : Platform}
    (c : ClassClient.KrakenClient) (now : Z) (method : jsstring)
    (params : option object) (callback : bool) :
  In method AVAILABLE_METHODS_private ->
  ClassClient.api c now method params callback
  = Normal (ClassClient._privateMethod c now method params callback)
  /\ let '(c', params', p) :=
       ClassClient._privateMethod c now method params callback in
     let config := ClassClient._config c in
     opt_url (sent p) = url config ++ private_path config method
     /\ opt_method (sent p) = lit "POST"
     /\ opt_headers (sent p)
        = [(lit "API-Key", VStr (key config));
           (lit "API-Sign",
            VStr (ClassClient._getMessageSignature c'
                    (private_path config method) params'
                    (lookup params' (lit "nonce"))));
           (lit "User-Agent", VStr (lit "Kraken Javascript API Client"))]
     /\ opt_form (sent p) = params'
     /\ opt_timeout (sent p) = timeoutMS config.
Proof.
  intros Hin. split.
  - unfold ClassClient.api.
    rewrite (private_not_public method Hin), (indexOf_present _ _ Hin).
    reflexivity.
  - unfold ClassClient._privateMethod. fold (bag params).
    destruct (truthy (lookup (bag params) (lit "nonce")));
      cbn [negb]; cbv zeta; repeat split.
Qed.

Lemma private_call_is_signed_witness :
  let c := {| ClassClient._config := example_config;
              ClassClient._lastNonce := 1700000000000000 |} in
  In (lit "Balance") AVAILABLE_METHODS_private
  /\ @ClassClient.api example_platform c 1700000000005 (lit "Balance") None
       false
     = Normal (@ClassClient._privateMethod example_platform c 1700000000005
                 (lit "Balance") None false).
Proof.
  intros c.
  assert (Hin : In (lit "Balance") AVAILABLE_METHODS_private).
  { unfold AVAILABLE_METHODS_private. cbn [map In]. left. reflexivity. }
  split; [exact Hin|].
  exact (proj1 (@private_call_is_signed example_platform c 1700000000005
                  (lit "Balance") None false Hin)).
Defined.

Lemma keys_assign (o : object) (k : jsstring) (v : value) :
  exists added,
    keys (assign o k v) = keys o ++ added /\ (added = [] \/ added = [k]).
Proof.
  unfold keys. induction o as [|[k' v'] rest IH]; simpl.
  - exists [k]. split; [reflexivity | now right].
  - destruct (jsstring_eqb k' k); simpl.
    + exists []. split; [now rewrite app_nil_r | now left].
    + destruct IH as (added & -> & Hadded). now exists added.
Qed.

Lemma keys_inject_otp (config : Config) (o : object) :
  exists added,
    keys (inject_otp config o) = keys o ++ added
    /\ (added = [] \/ added = [lit "otp"]).
Proof.
  unfold inject_otp.
  destruct (otp config); try apply keys_assign.
  exists []. split; [now rewrite app_nil_r | now left].
Qed.

Lemma lookup_inject_otp_other (config : Config) (o : object) (k : jsstring) :
  k <> lit "otp" -> lookup (inject_otp config o) k = lookup o k.
Proof.
  intros Hk. unfold inject_otp.
  destruct (otp config); try reflexivity;
    apply lookup_assign_other; congruence.
Qed.

(** X12. A private call changes the caller's parameter object at [nonce] and
    [otp] only: every other parameter reads as before, the caller's keys keep
    their places at the front, and at most [nonce] and [otp] are added behind
    them, in this order. The one-time password of the configuration, when
    there is one, replaces the caller's; when there is none the caller's
    stays. *)
Theorem private_call_frame {P : Platform}
    (c : ClassClient.KrakenClient) (now : Z) (method : jsstring)
    (params : option object) (callback : bool) :
  let '(_, params', _) :=
    ClassClient._privateMethod c now method params callback in
  let config := ClassClient._config c in
  (forall k, k <> lit "nonce" -> k <> lit "otp" ->
             lookup params' k = lookup (bag params) k)
  /\ (exists added,
         keys params' = keys (bag params) ++ added
         /\ In added [[]; [lit "nonce"]; [lit "otp"];
                      [lit "nonce"; lit "otp"]])
  /\ (otp config <> VUndefined -> lookup params' (lit "otp") = otp config)
  /\ (otp config = VUndefined ->
      lookup params' (lit "otp") = lookup (bag params) (lit "otp")).
Proof.
  unfold ClassClient._privateMethod. fold (bag params).
  set (n := VNum (ClassClient.next_nonce (ClassClient._lastNonce c) now)).
  destruct (truthy (lookup (bag params) (lit "nonce")));
    cbn [negb]; cbv zeta.
  - split; [|split; [|split]].
    + intros k _ Hk. now apply lookup_inject_otp_other.
    + destruct (keys_inject_otp (ClassClient._config c) (bag params))
        as (added & -> & [->| ->]); eexists; (split; [reflexivity|]);
        cbn [In]; tauto.
    + apply inject_otp_otp.
    + intros Hotp. unfold inject_otp. now rewrite Hotp.
  - split; [|split; [|split]].
    + intros k Hn Hk. rewrite lookup_inject_otp_other by exact Hk.
      apply lookup_assign_other. congruence.
    + destruct (keys_inject_otp (ClassClient._config c)
                  (assign (bag params) (lit "nonce") n))
        as (added2 & -> & Hadded2).
      destruct (keys_assign (bag params) (lit "nonce") n)
        as (added1 & -> & Hadded1).
      exists (added1 ++ added2). split; [now rewrite app_assoc|].
      destruct Hadded1 as [->| ->], Hadded2 as [->| ->]; cbn [app In]; tauto.
    + apply inject_otp_otp.
    + intros Hotp. unfold inject_otp. rewrite Hotp.
      apply lookup_assign_other. discriminate.
Qed.

(** X13. No call of [api] changes the configuration of the instance, and a
    call moves the counter by at most one step: with the counter in the safe
    range, it is afterwards the same or one more. *)
Theorem api_keeps_config {P : Platform}
    (c c' : ClassClient.KrakenClient) (now : Z) (method : jsstring)
    (params : option object) (callback : bool) (params' : object)
    (p : posted) :
  ClassClient.api c now method params callback = Normal (c', params', p) ->
  ClassClient._config c' = ClassClient._config c
  /\ (ClassClient._lastNonce c' = ClassClient._lastNonce c
      \/ ClassClient._lastNonce c'
         = ClassClient.next_nonce (ClassClient._lastNonce c) now)
  /\ (0 < ClassClient._lastNonce c < MAX_SAFE_INTEGER ->
      ClassClient._lastNonce c <= ClassClient._lastNonce c'
        <= ClassClient._lastNonce c + 1).
Proof.
  intros Hapi.
  assert (H : ClassClient._config c' = ClassClient._config c
              /\ (ClassClient._lastNonce c' = ClassClient._lastNonce c
                  \/ ClassClient._lastNonce c'
                     = ClassClient.next_nonce (ClassClient._lastNonce c) now)).
  { unfold ClassClient.api in Hapi.
    destruct (negb (indexOf AVAILABLE_METHODS_public method =? -1)).
    - unfold ClassClient._publicMethod in Hapi. injection Hapi as <- _ _.
      split; [reflexivity | now left].
    - destruct (negb (indexOf AVAILABLE_METHODS_private method =? -1));
        [|discriminate].
      unfold ClassClient._privateMethod in Hapi.
      destruct (truthy (lookup match params with
                               | Some o => o
                               | None => []
                               end (lit "nonce")));
        cbn [negb] in Hapi; cbv zeta in Hapi; injection Hapi as <- _ _.
      + split; [reflexivity | now left].
      + split; [reflexivity | now right]. }
  destruct H as [Hc Hn]. split; [exact Hc|]. split; [exact Hn|].
  intros Hsafe. destruct Hn as [->| ->]; [lia|].
  rewrite next_nonce_succ by exact Hsafe. lia.
Qed.

Lemma api_keeps_config_witness :
  let c := {| ClassClient._config := example_config;
              ClassClient._lastNonce := 1700000000000000 |} in
  let r := @ClassClient._privateMethod example_platform c 1700000000005
             (lit "Balance") None false in
  @ClassClient.api example_platform c 1700000000005 (lit "Balance") None
    false
  = Normal (fst (fst r), snd (fst r), snd r)
  /\ ClassClient._config (fst (fst r)) = example_config.
Proof.
  intros c r.
  assert (Hapi : @ClassClient.api example_platform c 1700000000005
                   (lit "Balance") None false
                 = Normal (fst (fst r), snd (fst r), snd r))
    by reflexivity.
  split; [exact Hapi|].
  exact (proj1 (@api_keeps_config example_platform c _ 1700000000005
                  (lit "Balance") None false _ _ Hapi)).
Defined.

(** * Further properties of the constructors *)

Lemma js_or_truthy (a b : value) :
  truthy b = true -> truthy (js_or a b) = true.
Proof. intros Hb. unfold js_or. now destruct (truthy a) eqn:E. Qed.

Lemma make_config_facts (key' secret' : jsstring) (options : value)
    (config : Config) :
  make_config key' secret' options = Normal config ->
  url config = lit "https://api.kraken.com"
  /\ key config = key'
  /\ secret config = secret'
  /\ truthy (version config) = true
  /\ truthy (timeoutMS config) = true.
Proof.
  unfold make_config.
  destruct (member options (lit "version")) as [v|]; [|discriminate].
  destruct (member options (lit "otp")) as [o|]; [|discriminate].
  destruct (member options (lit "timeout")) as [t|]; [|discriminate].
  intros [= <-]. cbn [url key secret version timeoutMS].
  repeat split; now apply js_or_truthy.
Qed.

(** X14. The constructor of the class throws exactly when [options] is
    [null] (a [TypeError]); otherwise it gives an instance whose counter is
    the clock times 1000, with the fixed URL, the key and the secret as
    given, and a version and a timeout that are never falsy (a timeout of [0]
    or an empty version falls back to the default). The constructor function
    never throws, [null] included. *)
Theorem constructor_behaviour (key' secret' : jsstring) (options : value)
    (now : Z) :
  (ClassClient.constructor key' secret' options now = Throw TypeError
   <-> options = VNull)
  /\ (forall c,
         ClassClient.constructor key' secret' options now = Normal c ->
         ClassClient._lastNonce c = num_mul now 1000
         /\ url (ClassClient._config c) = lit "https://api.kraken.com"
         /\ key (ClassClient._config c) = key'
         /\ secret (ClassClient._config c) = secret'
         /\ truthy (version (ClassClient._config c)) = true
         /\ truthy (timeoutMS (ClassClient._config c)) = true)
  /\ (exists f,
         ClosureClient.constructor key' secret' options = Normal f
         /\ url (ClosureClient.config f) = lit "https://api.kraken.com"
         /\ key (ClosureClient.config f) = key'
         /\ secret (ClosureClient.config f) = secret'
         /\ truthy (version (ClosureClient.config f)) = true
         /\ truthy (timeoutMS (ClosureClient.config f)) = true).
Proof.
  split; [|split].
  - destruct options; cbn; split; congruence.
  - intros c Hc. unfold ClassClient.constructor in Hc.
    destruct (make_config key' secret' _) as [config|e] eqn:Hm;
      [|discriminate].
    injection Hc as <-. cbn [ClassClient._lastNonce ClassClient._config].
    split; [reflexivity|]. exact (make_config_facts _ _ _ _ Hm).
  - unfold ClosureClient.constructor.
    destruct (make_config key' secret' _) as [config|e] eqn:Hm.
    + eexists. split; [reflexivity|].
      cbn [ClosureClient.config]. exact (make_config_facts _ _ _ _ Hm).
    + exfalso. unfold js_or in Hm.
      destruct options as [ | |b|n|s|l|o]; cbn in Hm; try discriminate.
      * destruct b; discriminate.
      * destruct (negb (n =? 0)); discriminate.
      * destruct s; discriminate.
Qed.

(** X15. A string in the place of [options] is the one-time password: the
    class takes any string, the empty one included, while the constructor
    function takes the empty string for no options at all and configures no
    one-time password. Version and timeout are then the defaults. *)
Theorem string_options_is_otp (key' secret' s : jsstring) (now : Z) :
  ClassClient.constructor key' secret' (VStr s) now
  = Normal {| ClassClient._config :=
                {| url := lit "https://api.kraken.com";
                   version := VStr (lit "0");
                   key := key';
                   secret := secret';
                   otp := VStr s;
                   timeoutMS := VNum 5000 |};
              ClassClient._lastNonce := num_mul now 1000 |}
  /\ ClosureClient.constructor key' secret' (VStr s)
     = Normal {| ClosureClient.config :=
                   {| url := lit "https://api.kraken.com";
                      version := VStr (lit "0");
                      key := key';
                      secret := secret';
                      otp := match s with
                             | [] => VUndefined
                             | _ => VStr s
                             end;
                      timeoutMS := VNum 5000 |} |}.
Proof. split; [reflexivity|]. destruct s; reflexivity. Qed.

(** * Further properties of the nonces *)

Lemma class_nonces_strictly_increasing_witness :
  let c := {| ClassClient._config := example_config;
              ClassClient._lastNonce := 1700000000000000 |} in
  let clock := [1700000000005; 1700000000005; 1700000000004] in
  0 < 1700000000000
  /\ 1700000000000 * 1000 + Z.of_nat (List.length clock) <= MAX_SAFE_INTEGER
  /\ ClassClient.constructor (lit "key") (lit "c2VjcmV0") VUndefined
       1700000000000 = Normal c
  /\ @Run.class_nonces example_platform c (lit "Balance") clock
     = [VNum 1700000000000001; VNum 1700000000000002;
        VNum 1700000000000003].
Proof.
  intros c clock.
  assert (H1 : 0 < 1700000000000) by reflexivity.
  assert (H2 : 1700000000000 * 1000 + Z.of_nat (List.length clock)
               <= MAX_SAFE_INTEGER) by (vm_compute; discriminate).
  split; [exact H1|]. split; [exact H2|]. split; [reflexivity|].
  exact (proj1 (@class_nonces_strictly_increasing example_platform
                  (lit "key") (lit "c2VjcmV0") VUndefined 1700000000000 c
                  (lit "Balance") clock H1 H2 eq_refl)).
Defined.

Lemma reused_params_keep_nonce_witness :
  let c := {| ClassClient._config := example_config;
              ClassClient._lastNonce := 1700000000000000 |} in
  let r1 := @ClassClient._privateMethod example_platform c 1700000000005
              (lit "Balance") None false in
  let r2 := @ClassClient._privateMethod example_platform (fst (fst r1))
              1700000000009 (lit "Balance") (Some (snd (fst r1))) false in
  0 < ClassClient._lastNonce c
  /\ fst (fst r2) = fst (fst r1)
  /\ lookup (snd (fst r2)) (lit "nonce") = VNum 1700000000000001.
Proof.
  intros c r1 r2.
  assert (H1 : 0 < ClassClient._lastNonce c) by reflexivity.
  pose proof (@reused_params_keep_nonce example_platform c 1700000000005
                1700000000009 (lit "Balance") false H1) as H.
  vm_compute in H. destruct H as [Ha Hb].
  split; [exact H1|]. split; [exact Ha|exact Hb].
Defined.

Lemma closure_clock_increasing (clock : list Z) :
  Forall (fun now => 0 < now /\ now * 1000 <= MAX_SAFE_INTEGER) clock ->
  strictly_increasing (map VNum clock) ->
  strictly_increasing (map (fun now => VNum (num_mul now 1000)) clock).
Proof.
  induction clock as [|a [|b rest] IH]; intros Hsafe Hinc.
  - exact I.
  - exact I.
  - cbn [map strictly_increasing] in Hinc |- *.
    destruct Hinc as [Hab Hrest].
    pose proof (Forall_inv Hsafe) as [Ha Ha'].
    pose proof (Forall_inv (Forall_inv_tail Hsafe)) as [Hb Hb'].
    split.
    + unfold num_mul. rewrite !num_round_safe by lia. lia.
    + apply IH; [exact (Forall_inv_tail Hsafe) | exact Hrest].
Qed.

(** X18. The constructor function takes every nonce from the clock: its
    nonces are strictly increasing whenever the clock readings of the calls
    are (past the epoch, and in the safe range once in microseconds). *)
Theorem closure_nonces_follow_clock {P : Platform}
    (f : ClosureClient.KrakenClient) (method : jsstring) (clock : list Z) :
  Forall (fun now => 0 < now /\ now * 1000 <= MAX_SAFE_INTEGER) clock ->
  strictly_increasing (map VNum clock) ->
  Run.closure_nonces f method clock
  = map (fun now => VNum (now * 1000)) clock
  /\ strictly_increasing (Run.closure_nonces f method clock).
Proof.
  intros Hsafe Hinc. rewrite closure_nonces_clock. split.
  - apply map_ext_in. intros now Hin.
    rewrite Forall_forall in Hsafe. destruct (Hsafe now Hin).
    unfold num_mul. rewrite num_round_safe by lia. reflexivity.
  - now apply closure_clock_increasing.
Qed.

Lemma closure_nonces_follow_clock_witness :
  let f := {| ClosureClient.config := example_config |} in
  let clock := [1700000000005; 1700000000006] in
  Forall (fun now => 0 < now /\ now * 1000 <= MAX_SAFE_INTEGER) clock
  /\ strictly_increasing (map VNum clock)
  /\ @Run.closure_nonces example_platform f (lit "Balance") clock
     = [VNum 1700000000005000; VNum 1700000000006000].
Proof.
  intros f clock.
  assert (H1 : Forall (fun now => 0 < now /\ now * 1000 <= MAX_SAFE_INTEGER)
                 clock).
  { repeat constructor; vm_compute; discriminate. }
  assert (H2 : strictly_increasing (map VNum clock)).
  { cbn. split; [reflexivity | exact I]. }
  split; [exact H1|]. split; [exact H2|].
  exact (proj1 (@closure_nonces_follow_clock example_platform f
                  (lit "Balance") clock H1 H2)).
Defined.

(** * Further properties of the signature *)

Lemma byte_of_code_unit_mod (c : code_unit) :
  byte_of_code_unit (c mod 256)%N = byte_of_code_unit c.
Proof.
  unfold byte_of_code_unit. now rewrite N.Div0.mod_mod.
Qed.

(** X19. The HMAC reads the path in the ['binary'] encoding, which keeps the
    low byte of each code unit: two paths whose code units agree modulo 256
    get the same signature. *)
Theorem signature_reads_low_bytes {P : Platform}
    (c : ClassClient.KrakenClient) (path path' : jsstring)
    (request : object) (nonce : value) :
  map (fun u => (u mod 256)%N) path = map (fun u => (u mod 256)%N) path' ->
  ClassClient._getMessageSignature c path request nonce
  = ClassClient._getMessageSignature c path' request nonce.
Proof.
  intros Hlow.
  assert (Hbytes : binary_encode path = binary_encode path').
  { unfold binary_encode.
    rewrite <- (map_ext _ _ byte_of_code_unit_mod path).
    rewrite <- (map_ext _ _ byte_of_code_unit_mod path').
    rewrite <- !(map_map (fun u => (u mod 256)%N) byte_of_code_unit).
    now rewrite Hlow. }
  unfold ClassClient._getMessageSignature, message_signature.
  now rewrite !binary_encode_app, Hbytes.
Qed.

Lemma signature_reads_low_bytes_witness :
  let c := {| ClassClient._config := example_config;
              ClassClient._lastNonce := 1700000000000000 |} in
  let path := lit "/0/private/Balance" in
  let path' := 303%N :: tl path in
  map (fun u => (u mod 256)%N) path = map (fun u => (u mod 256)%N) path'
  /\ path <> path'
  /\ @ClassClient._getMessageSignature example_platform c path []
       (VNum 1700000000000001)
     = @ClassClient._getMessageSignature example_platform c path' []
         (VNum 1700000000000001).
Proof.
  intros c path path'.
  assert (H1 : map (fun u => (u mod 256)%N) path
               = map (fun u => (u mod 256)%N) path') by reflexivity.
  split; [exact H1|]. split; [discriminate|].
  exact (@signature_reads_low_bytes example_platform c path path' []
           (VNum 1700000000000001) H1).
Defined.
